(** * MCP_3/client.py: tool-call resolution and dispatch in [ask_llm]

    A shallow embedding of [ask_llm] (src/MCP_3/client.py): the extraction of
    a tool name and of raw arguments from the tool-call object returned by the
    chat completion, the normalisation of the name, the decoding of the
    arguments, the per-tool defaults, and the HTTP dispatch with the follow-up
    completion.

    Conventions of the embedding.
    - A Python value is a [pyval].  An object of a class that is not a
      built-in container is a [PObj]: it carries exactly what [ask_llm] can
      observe of it (its attributes, what calling it with no argument gives,
      what [dict(o)] gives, what [str(o)] gives, its truth value).
    - A dict is the list of its entries in insertion order, under string
      keys: the keys [ask_llm] looks up, and the keys of a JSON object, are
      strings.
    - A Python [str] is a [string]; text is read as ASCII: the classes [\w]
      and [\s] of [re] are the ASCII ones, and a byte above 127 is in neither.
      Python's classes and slices work on the characters of Unicode text:
      the statements on the sender pattern, on the normalisation of a name
      and on slices are made for ASCII text, where a character is a byte.
    - An operation that can raise returns an [option]; [None] is "raised".
      Every handler of the source is [except Exception], so the kind of the
      exception is not recorded.
    - [str()] of a float, a list or a dict and [dict()] of a list belong to
      the interpreter: they are the fields of an [interp] record.  The two
      chat completions and [requests.post] are external services: they are
      the fields of a [services] record.  [ask_llm] receives both.
    - [ask_llm] is the run when both completions return, which is where the
      resolution and the dispatch are reached; [ask_llm_raising] is the run
      when a completion can raise as well, and the two agree when none
      does.
    - Limits of the interpreter (recursion depth, maximal number of digits of
      an integer literal) are not part of the embedding. *)

From Stdlib Require Import ZArith List Bool Ascii String Lia.
From Stdlib Require Import Numbers.DecimalString.
Import ListNotations.

Set Warnings "-register-all".

Local Open Scope string_scope.
Local Open Scope Z_scope.

(** ** Python values *)

(** A float is kept as the decimal it was written with (sign, digits,
    power of ten), or as one of the three non-finite values. *)
Inductive pyfloat : Type :=
| FDec (neg : bool) (m : Z) (e : Z)
| FInf (neg : bool)
| FNan.

(** The fields of an object: its attributes ([getattr], [hasattr]); what
    calling it with no argument returns, [None] when the call raises or the
    object is not callable; what [dict(o)] returns, [None] when it raises;
    what [str(o)] returns, [None] when it raises; its truth value. *)
Inductive pyval : Type :=
| PNone
| PBool (b : bool)
| PInt (z : Z)
| PFloat (f : pyfloat)
| PStr (s : string)
| PList (l : list pyval)
| PDict (d : list (string * pyval))
| PObj (attrs : list (string * pyval))
       (call : option pyval)
       (mapping : option (list (string * pyval)))
       (text : option string)
       (truth : bool).

Definition pydict : Type := list (string * pyval).

(** [d.get(k)]: the value under [k], [None] when the key is missing. *)
Fixpoint dict_get (d : pydict) (k : string) : pyval :=
  match d with
  | [] => PNone
  | (k', v) :: d' => if String.eqb k k' then v else dict_get d' k
  end.

Fixpoint dict_has (d : pydict) (k : string) : bool :=
  match d with
  | [] => false
  | (k', _) :: d' => String.eqb k k' || dict_has d' k
  end.

(** [d[k] = v]: an existing key keeps its place, a new key goes last. *)
Fixpoint dict_set (d : pydict) (k : string) (v : pyval) : pydict :=
  match d with
  | [] => [(k, v)]
  | (k', v') :: d' =>
      if String.eqb k k' then (k', v) :: d' else (k', v') :: dict_set d' k v
  end.

(** The decimal 2^-1075 is half of the least positive double: a decimal
    literal is read as 0.0 exactly when it is at most that. *)
Definition float_nonzero (f : pyfloat) : bool :=
  match f with
  | FDec _ m e =>
      if 0 <=? e then 0 <? m else 10 ^ (- e) <? m * 2 ^ 1075
  | FInf _ => true
  | FNan => true
  end.

(** Truth value of a value ([if v:], [not v], [v or w]). *)
Definition truthy (v : pyval) : bool :=
  match v with
  | PNone => false
  | PBool b => b
  | PInt z => negb (z =? 0)
  | PFloat f => float_nonzero f
  | PStr s => negb (String.eqb s EmptyString)
  | PList l => match l with [] => false | _ => true end
  | PDict d => match d with [] => false | _ => true end
  | PObj _ _ _ _ t => t
  end.

(** [a or b] *)
Definition py_or (a b : pyval) : pyval := if truthy a then a else b.

Definition is_none (v : pyval) : bool :=
  match v with PNone => true | _ => false end.

Definition is_str (v : pyval) : bool :=
  match v with PStr _ => true | _ => false end.

(** [getattr(v, a, None)] for the names [ask_llm] probes ([name], [tool],
    [function], [tool_name], [arguments], [args]): no built-in type has an
    attribute of one of these names. *)
Definition py_getattr (v : pyval) (a : string) : pyval :=
  match v with
  | PObj attrs _ _ _ _ => dict_get attrs a
  | _ => PNone
  end.

(** [hasattr(v, a)] for [model_dump] and [dict]. *)
Definition py_hasattr (v : pyval) (a : string) : bool :=
  match v with
  | PObj attrs _ _ _ _ => dict_has attrs a
  | _ => false
  end.

(** [v.m()]: the attribute [m] of [v] called with no argument.  The attribute
    is known to exist when this is used; calling a value that is not
    callable raises. *)
Definition py_call_method (v : pyval) (m : string) : option pyval :=
  match py_getattr v m with
  | PObj _ call _ _ _ => call
  | _ => None
  end.

(** [d.get(k)] on a value: only a dict has [get]; on anything else the
    attribute lookup raises. *)
Definition py_get (v : pyval) (k : string) : option pyval :=
  match v with
  | PDict d => Some (dict_get d k)
  | _ => None
  end.

(** What the interpreter computes and the embedding does not: [str(v)] for a
    float, a list or a dict (the text CPython prints for them, which is
    total: printing the items of a container is taken not to raise), and
    [dict(l)] for a list [l] (a list of key/value pairs, seen through its
    string keys; [None] when it raises). *)
Record interp : Type := {
  str_builtin : pyval -> string;
  dict_of_list : list pyval -> option pydict
}.

Definition Z_to_string (z : Z) : string :=
  NilZero.string_of_int (Z.to_int z).

(** [str(v)] *)
Definition py_str (it : interp) (v : pyval) : option string :=
  match v with
  | PNone => Some "None"
  | PBool true => Some "True"
  | PBool false => Some "False"
  | PInt z => Some (Z_to_string z)
  | PStr s => Some s
  | PObj _ _ _ text _ => text
  | PFloat _ | PList _ | PDict _ => Some (str_builtin it v)
  end.

(** [dict(v)]: a dict is copied; an object is converted by its own protocol;
    the empty string has no item to convert and a non-empty one has items of
    length 1; [None], booleans and numbers are not iterable. *)
Definition py_dict (it : interp) (v : pyval) : option pydict :=
  match v with
  | PDict d => Some d
  | PObj _ _ mapping _ _ => mapping
  | PStr s => if String.eqb s EmptyString then Some [] else None
  | PList l => dict_of_list it l
  | PNone | PBool _ | PInt _ | PFloat _ => None
  end.

(** ** Text: character classes and the searches of [re] *)

Definition dquote : ascii := "034"%char.
Definition backslash : ascii := "092"%char.

(** [dq s] is [s] with every backquote replaced by a double quote; it is
    only used to write literals that contain double quotes. *)
Fixpoint dq (s : string) : string :=
  match s with
  | EmptyString => EmptyString
  | String c r => String (if Ascii.eqb c "`" then dquote else c) (dq r)
  end.

Definition code (c : ascii) : Z := Z.of_N (N_of_ascii c).

Definition in_range (lo hi : Z) (c : ascii) : bool :=
  (lo <=? code c) && (code c <=? hi).

Definition is_digit (c : ascii) : bool := in_range 48 57 c.
Definition is_upper (c : ascii) : bool := in_range 65 90 c.
Definition is_lower (c : ascii) : bool := in_range 97 122 c.
Definition is_alnum (c : ascii) : bool := is_upper c || is_lower c || is_digit c.

(** [\w] *)
Definition is_word (c : ascii) : bool := is_alnum c || Ascii.eqb c "_".

(** [\s], and what [str.strip()] removes: tab, line feed, vertical tab, form
    feed, carriage return, the four separators 28 to 31, space. *)
Definition is_space (c : ascii) : bool := in_range 9 13 c || in_range 28 32 c.

(** [[A-Za-z0-9_\-]] *)
Definition is_ident (c : ascii) : bool := is_alnum c || Ascii.eqb c "_" || Ascii.eqb c "-".

(** The class of the two quote characters, single and double. *)
Definition is_quote (c : ascii) : bool := Ascii.eqb c "'" || Ascii.eqb c dquote.

(** [[\w\s\.\-@]] *)
Definition is_sender (c : ascii) : bool :=
  is_word c || is_space c || Ascii.eqb c "." || Ascii.eqb c "-" || Ascii.eqb c "@".

Definition lower (c : ascii) : ascii :=
  if is_upper c then ascii_of_N (N_of_ascii c + 32) else c.

(** Equality of characters under [re.I]. *)
Definition eqb_ci (a b : ascii) : bool := Ascii.eqb (lower a) (lower b).

Definition nonempty (s : string) : bool :=
  match s with EmptyString => false | String _ _ => true end.

(** The longest prefix of [s] made of characters of the class [p], and what
    follows it: a greedy [[p]*]. *)
Fixpoint span (p : ascii -> bool) (s : string) : string * string :=
  match s with
  | EmptyString => (EmptyString, EmptyString)
  | String c r =>
      if p c then let (a, b) := span p r in (String c a, b)
      else (EmptyString, s)
  end.

(** A literal at the head of [s]: what follows it. *)
Fixpoint strip_prefix (eq : ascii -> ascii -> bool) (lit s : string) : option string :=
  match lit with
  | EmptyString => Some s
  | String a lit' =>
      match s with
      | EmptyString => None
      | String c r => if eq a c then strip_prefix eq lit' r else None
      end
  end.

Definition starts_with (lit s : string) : bool :=
  match strip_prefix Ascii.eqb lit s with Some _ => true | None => false end.

Fixpoint all_chars (p : ascii -> bool) (s : string) : bool :=
  match s with
  | EmptyString => true
  | String c r => p c && all_chars p r
  end.

Fixpoint last_char (s : string) : option ascii :=
  match s with
  | EmptyString => None
  | String c EmptyString => Some c
  | String _ r => last_char r
  end.

(** [\b] between the character before the position and the text at the
    position: exactly one side is a word character. *)
Definition word_boundary (prev : option ascii) (s : string) : bool :=
  xorb (match prev with Some c => is_word c | None => false end)
       (match s with String c _ => is_word c | EmptyString => false end).

(** [re.search]: the match at the leftmost position where the pattern
    matches.  A pattern is a function from the character before the position
    and the text at the position to its match there. *)
Fixpoint search_from {A : Type} (pat : option ascii -> string -> option A)
    (prev : option ascii) (s : string) : option A :=
  match pat prev s with
  | Some m => Some m
  | None =>
      match s with
      | EmptyString => None
      | String c r => search_from pat (Some c) r
      end
  end.

Definition re_search {A : Type} (pat : option ascii -> string -> option A)
    (s : string) : option A :=
  search_from pat None s.

(** [\bFunction\(|\bfunction\(|\bToolCall\(|\bChatCompletion] (line 159) *)
Definition pat_repr (prev : option ascii) (s : string) : option unit :=
  if word_boundary prev s
     && (starts_with "Function(" s || starts_with "function(" s
         || starts_with "ToolCall(" s || starts_with "ChatCompletion" s)
  then Some tt else None.

(** The part [name=Q?([A-Za-z0-9_\-]+)] of the patterns of lines 160 and
    170, group 1, where [Q] is the class of the two quote characters.  The
    optional quote is taken when it is there: giving it back would leave the
    group in front of a quote, where it cannot start.  The group takes the
    whole run of its class. *)
Definition name_eq (s : string) : option string :=
  match strip_prefix Ascii.eqb "name=" s with
  | None => None
  | Some r =>
      let r' := match r with
                | String c t => if is_quote c then t else r
                | EmptyString => r
                end in
      let (g, _) := span is_ident r' in
      if nonempty g then Some g else None
  end.

(** [name=Q?([A-Za-z0-9_\-]+)Q?] (line 160), group 1: the closing quote is
    optional and follows the group. *)
Definition pat_name (prev : option ascii) (s : string) : option string :=
  name_eq s.

(** [\bname=Q?([A-Za-z0-9_\-]+)] (line 170), group 1 *)
Definition pat_bname (prev : option ascii) (s : string) : option string :=
  if word_boundary prev s then name_eq s else None.

(** [([A-Za-z0-9_\-]+)\)\s*$] (line 165), group 1: the group is a whole run
    of its class (a shorter one is followed by a character of the class, not
    by the parenthesis), and after the parenthesis only white space is left
    up to the end of the text. *)
Definition pat_last_ident (prev : option ascii) (s : string) : option string :=
  let (g, r) := span is_ident s in
  if nonempty g then
    match r with
    | String ")" t => if all_chars is_space t then Some g else None
    | _ => None
    end
  else None.

(** [from\s+([\w\s\.\-@]+)] under [re.I] (line 198), group 1.  [\s+] first
    takes the whole run of white space and the group the whole run of its
    class after it; when nothing of the class follows the white space,
    [\s+] gives back its last character, which the group then takes alone. *)
Definition pat_sender (prev : option ascii) (s : string) : option string :=
  match strip_prefix eqb_ci "from" s with
  | None => None
  | Some r =>
      let (ws, r') := span is_space r in
      let (g, _) := span is_sender r' in
      if nonempty ws then
        if nonempty g then Some g
        else
          match ws with
          | String _ (String _ _) =>
              match last_char ws with
              | Some c => Some (String c EmptyString)
              | None => None
              end
          | _ => None
          end
      else None
  end.

(** [s.strip(chars)]: characters of the class removed at both ends. *)
Fixpoint lstrip (p : ascii -> bool) (s : string) : string :=
  match s with
  | EmptyString => EmptyString
  | String c r => if p c then lstrip p r else s
  end.

Fixpoint rstrip (p : ascii -> bool) (s : string) : string :=
  match s with
  | EmptyString => EmptyString
  | String c r =>
      match rstrip p r with
      | EmptyString => if p c then EmptyString else String c EmptyString
      | r' => String c r'
      end
  end.

Definition strip (p : ascii -> bool) (s : string) : string := rstrip p (lstrip p s).

(** The characters that line 200 strips: the two quotes, the question mark
    and the dot. *)
Definition is_sender_trim (c : ascii) : bool :=
  Ascii.eqb c dquote || Ascii.eqb c "'" || Ascii.eqb c "?" || Ascii.eqb c ".".

(** ** [json.loads] *)

(** The outcome of a scanner: a value and the text after it, a text that is
    not JSON, or a recursion that ran out of fuel. *)
Inductive parsed (A : Type) : Type :=
| Parsed (a : A) (rest : string)
| Invalid
| OutOfFuel.

Arguments Parsed {A} a rest.
Arguments Invalid {A}.
Arguments OutOfFuel {A}.

(** The white space of JSON: space, tab, line feed, carriage return. *)
Definition is_json_ws (c : ascii) : bool :=
  Ascii.eqb c " " || Ascii.eqb c "009" || Ascii.eqb c "010" || Ascii.eqb c "013".

Definition skip_ws (s : string) : string := lstrip is_json_ws s.

Definition hex_digit (c : ascii) : option Z :=
  if is_digit c then Some (code c - 48)
  else if in_range 97 102 c then Some (code c - 87)
  else if in_range 65 70 c then Some (code c - 55)
  else None.

Definition hex4 (a b c d : ascii) : option Z :=
  match hex_digit a, hex_digit b, hex_digit c, hex_digit d with
  | Some x, Some y, Some z, Some t => Some (((x * 16 + y) * 16 + z) * 16 + t)
  | _, _, _, _ => None
  end.

Definition byte (z : Z) : ascii := ascii_of_N (Z.to_N z).

(** The bytes of a code point in UTF-8. *)
Definition utf8 (cp : Z) (tail : string) : string :=
  if cp <? 128 then String (byte cp) tail
  else if cp <? 2048 then
    String (byte (192 + cp / 64)) (String (byte (128 + cp mod 64)) tail)
  else if cp <? 65536 then
    String (byte (224 + cp / 4096))
      (String (byte (128 + (cp / 64) mod 64)) (String (byte (128 + cp mod 64)) tail))
  else
    String (byte (240 + cp / 262144))
      (String (byte (128 + (cp / 4096) mod 64))
        (String (byte (128 + (cp / 64) mod 64)) (String (byte (128 + cp mod 64)) tail))).

(** The character a one-letter escape stands for. *)
Definition unescape (c : ascii) : option ascii :=
  if Ascii.eqb c dquote then Some dquote
  else if Ascii.eqb c backslash then Some backslash
  else if Ascii.eqb c "/" then Some "/"%char
  else if Ascii.eqb c "b" then Some "008"%char
  else if Ascii.eqb c "f" then Some "012"%char
  else if Ascii.eqb c "n" then Some "010"%char
  else if Ascii.eqb c "r" then Some "013"%char
  else if Ascii.eqb c "t" then Some "009"%char
  else None.

Definition cons_to (k : string -> string) (r : option (string * string))
  : option (string * string) :=
  match r with
  | Some (t, rest) => Some (k t, rest)
  | None => None
  end.

(** A given character at the head of the text: what follows it. *)
Definition eat (c : ascii) (s : string) : option string :=
  match s with
  | String c' r => if Ascii.eqb c c' then Some r else None
  | EmptyString => None
  end.

Definition is_high_surrogate (u : Z) : bool := (55296 <=? u) && (u <=? 56319).
Definition is_low_surrogate (u : Z) : bool := (56320 <=? u) && (u <=? 57343).

(** The content of a JSON string, read after its opening quote, and the text
    after its closing quote.  Control characters are refused; a high
    surrogate escape followed by a low surrogate escape is one code point. *)
Fixpoint scan_string (s : string) : option (string * string) :=
  match s with
  | EmptyString => None
  | String c r =>
      if Ascii.eqb c dquote then Some (EmptyString, r)
      else if Ascii.eqb c backslash then
        match r with
        | EmptyString => None
        | String e r1 =>
            if Ascii.eqb e "u" then
              match r1 with
              | String h1 (String h2 (String h3 (String h4 r2))) =>
                  match hex4 h1 h2 h3 h4 with
                  | None => None
                  | Some u =>
                      match r2 with
                      | String b (String e2 (String g1 (String g2 (String g3 (String g4 r3))))) =>
                          if Ascii.eqb b backslash && Ascii.eqb e2 "u" && is_high_surrogate u
                          then
                            match hex4 g1 g2 g3 g4 with
                            | None => None
                            | Some u2 =>
                                if is_low_surrogate u2 then
                                  cons_to (utf8 (65536 + (u - 55296) * 1024 + (u2 - 56320)))
                                          (scan_string r3)
                                else cons_to (utf8 u) (scan_string r2)
                            end
                          else cons_to (utf8 u) (scan_string r2)
                      | _ => cons_to (utf8 u) (scan_string r2)
                      end
                  end
              | _ => None
              end
            else
              match unescape e with
              | Some ch => cons_to (String ch) (scan_string r1)
              | None => None
              end
        end
      else if code c <? 32 then None
      else cons_to (String c) (scan_string r)
  end.

Fixpoint digits_value (s : string) (acc : Z) : Z :=
  match s with
  | EmptyString => acc
  | String c r => digits_value r (acc * 10 + (code c - 48))
  end.

(** The integer part of a number: a single zero, or a run of digits that
    does not start with zero. *)
Definition scan_int_part (s : string) : option (string * string) :=
  match s with
  | String c r =>
      if Ascii.eqb c "0" then Some ("0", r)
      else if is_digit c then Some (span is_digit s)
      else None
  | EmptyString => None
  end.

(** The optional fraction: a dot and at least one digit. *)
Definition scan_frac (s : string) : option (string * string) :=
  match eat "." s with
  | Some r =>
      let (ds, r') := span is_digit r in
      if nonempty ds then Some (ds, r') else None
  | None => None
  end.

(** The optional exponent: [e] or [E], an optional sign, at least one digit. *)
Definition scan_exp (s : string) : option (Z * string) :=
  match s with
  | String c r =>
      if Ascii.eqb c "e" || Ascii.eqb c "E" then
        let (sign, r1) := match eat "-" r with
                          | Some t => (-1, t)
                          | None =>
                              match eat "+" r with
                              | Some t => (1, t)
                              | None => (1, r)
                              end
                          end in
        let (ds, r2) := span is_digit r1 in
        if nonempty ds then Some (sign * digits_value ds 0, r2) else None
      else None
  | EmptyString => None
  end.

(** A number: an [int] when it has neither fraction nor exponent, a [float]
    otherwise. *)
Definition scan_number (s : string) : option (pyval * string) :=
  let (neg, s1) := match eat "-" s with
                   | Some t => (true, t)
                   | None => (false, s)
                   end in
  match scan_int_part s1 with
  | None => None
  | Some (ip, r) =>
      match scan_frac r with
      | None =>
          match scan_exp r with
          | None =>
              Some (PInt (if neg then - digits_value ip 0 else digits_value ip 0), r)
          | Some (ex, r2) => Some (PFloat (FDec neg (digits_value ip 0) ex), r2)
          end
      | Some (fp, r1) =>
          let m := digits_value fp (digits_value ip 0) in
          let shift := Z.of_nat (String.length fp) in
          match scan_exp r1 with
          | None => Some (PFloat (FDec neg m (- shift)), r1)
          | Some (ex, r2) => Some (PFloat (FDec neg m (ex - shift)), r2)
          end
      end
  end.

(** The constants, then the numbers. *)
Definition scan_atom (s : string) : option (pyval * string) :=
  match strip_prefix Ascii.eqb "null" s with
  | Some r => Some (PNone, r)
  | None =>
  match strip_prefix Ascii.eqb "true" s with
  | Some r => Some (PBool true, r)
  | None =>
  match strip_prefix Ascii.eqb "false" s with
  | Some r => Some (PBool false, r)
  | None =>
  match scan_number s with
  | Some res => Some res
  | None =>
  match strip_prefix Ascii.eqb "NaN" s with
  | Some r => Some (PFloat FNan, r)
  | None =>
  match strip_prefix Ascii.eqb "Infinity" s with
  | Some r => Some (PFloat (FInf false), r)
  | None =>
  match strip_prefix Ascii.eqb "-Infinity" s with
  | Some r => Some (PFloat (FInf true), r)
  | None => None
  end end end end end end end.

(** One JSON value at the head of the text.  [object_items] and
    [array_items] read the members of an object and the items of an array
    from the first one on, after the white space that follows the opening
    bracket, the colon or the comma. *)
Fixpoint scan_once (n : nat) (s : string) : parsed pyval :=
  match n with
  | O => OutOfFuel
  | S n' =>
      match s with
      | EmptyString => Invalid
      | String c r =>
          if Ascii.eqb c dquote then
            match scan_string r with
            | Some (t, r') => Parsed (PStr t) r'
            | None => Invalid
            end
          else if Ascii.eqb c "{" then
            match eat "}" (skip_ws r) with
            | Some r' => Parsed (PDict []) r'
            | None => object_items n' (skip_ws r) []
            end
          else if Ascii.eqb c "[" then
            match eat "]" (skip_ws r) with
            | Some r' => Parsed (PList []) r'
            | None => array_items n' (skip_ws r) []
            end
          else
            match scan_atom s with
            | Some (v, r') => Parsed v r'
            | None => Invalid
            end
      end
  end
with object_items (n : nat) (s : string) (acc : pydict) : parsed pyval :=
  match n with
  | O => OutOfFuel
  | S n' =>
      match eat dquote s with
      | None => Invalid
      | Some r =>
          match scan_string r with
          | None => Invalid
          | Some (k, r1) =>
              match eat ":" (skip_ws r1) with
              | None => Invalid
              | Some r2 =>
                  match scan_once n' (skip_ws r2) with
                  | Parsed v r3 =>
                      match eat "}" (skip_ws r3) with
                      | Some r4 => Parsed (PDict (dict_set acc k v)) r4
                      | None =>
                          match eat "," (skip_ws r3) with
                          | Some r4 => object_items n' (skip_ws r4) (dict_set acc k v)
                          | None => Invalid
                          end
                      end
                  | Invalid => Invalid
                  | OutOfFuel => OutOfFuel
                  end
              end
          end
      end
  end
with array_items (n : nat) (s : string) (acc : list pyval) : parsed pyval :=
  match n with
  | O => OutOfFuel
  | S n' =>
      match scan_once n' s with
      | Parsed v r =>
          match eat "]" (skip_ws r) with
          | Some r' => Parsed (PList (rev (v :: acc))) r'
          | None =>
              match eat "," (skip_ws r) with
              | Some r' => array_items n' (skip_ws r') (v :: acc)
              | None => Invalid
              end
          end
      | Invalid => Invalid
      | OutOfFuel => OutOfFuel
      end
  end.

(** [json.loads(s)]: one value between optional white space and nothing
    else.  Twice the length of the text is fuel enough (lemma
    [json_loads_fuel]). *)
Definition json_loads (s : string) : option pyval :=
  match scan_once (2 * String.length s + 2) (skip_ws s) with
  | Parsed v r =>
      match skip_ws r with
      | EmptyString => Some v
      | _ => None
      end
  | _ => None
  end.

(** ** Resolution of a tool call (lines 80 to 212 of [ask_llm]) *)

(** Lines 86 to 98: a dict view [tc_dict] of the tool call, from
    [model_dump()], from [dict()], or from the conversion [dict(tool_call)];
    the empty dict when the attempt raises.  The value a [model_dump] or a
    [dict] method returns is kept whatever it is. *)
Definition tc_dict_of (it : interp) (tool_call : pyval) : pyval :=
  if py_hasattr tool_call "model_dump" then
    match py_call_method tool_call "model_dump" with
    | Some v => v
    | None => PDict []
    end
  else if py_hasattr tool_call "dict" then
    match py_call_method tool_call "dict" with
    | Some v => v
    | None => PDict []
    end
  else
    match py_dict it tool_call with
    | Some d => PDict d
    | None => PDict []
    end.

(** Lines 101 to 105: the first attribute of the list whose value is true;
    [None] when there is none. *)
Fixpoint first_truthy_attr (tool_call : pyval) (attrs : list string) : pyval :=
  match attrs with
  | [] => PNone
  | attr :: rest =>
      let val := py_getattr tool_call attr in
      if truthy val then val else first_truthy_attr tool_call rest
  end.

Definition name_attrs : list string := ["name"; "tool"; "function"; "tool_name"].

(** Lines 110 to 118: the entries of [tc_dict] are preferred for the name,
    and used for the arguments when the attributes gave none.  The first
    [get] raises when [tc_dict] is not a dict, and the handler leaves both
    variables as they were. *)
Definition prefer_dict (tc_dict tool_name raw_args : pyval) : pyval * pyval :=
  match tc_dict with
  | PDict d =>
      let fn := dict_get d "function" in
      let dict_name :=
        py_or (py_or (dict_get d "name") (dict_get d "tool"))
              (if is_str fn then fn else PNone) in
      let dict_args :=
        py_or (py_or (dict_get d "arguments") (dict_get d "args"))
              (dict_get d "arguments_json") in
      (if truthy dict_name then dict_name else tool_name,
       if negb (is_none dict_args) && is_none raw_args then dict_args else raw_args)
  | _ => (tool_name, raw_args)
  end.

(** The three ways lines 130 to 135 and 145 to 150 turn a value into a
    dict-like one. *)
Definition dump_of (it : interp) (v : pyval) : option pyval :=
  if py_hasattr v "model_dump" then py_call_method v "model_dump"
  else if py_hasattr v "dict" then py_call_method v "dict"
  else option_map PDict (py_dict it v).

(** Lines 121 to 138: a name nested in a dict or in an object.  The [str()]
    of the handler (line 138) is outside any [try]: [None] is the exception
    leaving [ask_llm]. *)
Definition unnest_name (it : interp) (tool_name : pyval) : option pyval :=
  match tool_name with
  | PDict d => Some (py_or (dict_get d "name") (dict_get d "tool"))
  | PNone => Some tool_name
  | PStr _ => Some tool_name
  | _ =>
      let name_attr := py_getattr tool_name "name" in
      if truthy name_attr then Some name_attr
      else
        let attempt :=
          match dump_of it tool_name with
          | Some (PDict tcd) =>
              let n := py_or (dict_get tcd "name") (dict_get tcd "tool") in
              if truthy n then Some n else option_map PStr (py_str it tool_name)
          | _ => None
          end in
        match attempt with
        | Some v => Some v
        | None => option_map PStr (py_str it tool_name)
        end
  end.

(** Lines 141 to 152: missing arguments are read from [tc_dict], with a
    [get] that is outside any [try]; arguments that are neither a string, a
    dict nor a list are converted, and the [str()] of the handler is outside
    any [try] too.  [None] is the exception leaving [ask_llm]. *)
Definition normalize_raw_args (it : interp) (tc_dict raw_args : pyval) : option pyval :=
  match raw_args with
  | PNone =>
      match py_get tc_dict "arguments", py_get tc_dict "args",
            py_get tc_dict "arguments_json" with
      | Some a, Some b, Some c => Some (py_or (py_or a b) c)
      | _, _, _ => None
      end
  | PStr _ | PDict _ | PList _ => Some raw_args
  | _ =>
      match dump_of it raw_args with
      | Some v => Some v
      | None => option_map PStr (py_str it raw_args)
      end
  end.

(** Lines 155 to 179: a name that is the text of a printed object is replaced
    by the name found inside it; a name that is not a string is replaced by
    its text, or by the name found inside its text.  [None] is Python's
    [None]. *)
Definition sanitize_name (it : interp) (tool_name : pyval) : option string :=
  match tool_name with
  | PStr s =>
      match re_search pat_repr s with
      | Some _ =>
          match re_search pat_name s with
          | Some g => Some g
          | None =>
              match re_search pat_last_ident s with
              | Some g => Some g
              | None => Some s
              end
          end
      | None => Some s
      end
  | _ =>
      match py_str it tool_name with
      | Some rep =>
          match re_search pat_bname rep with
          | Some g => Some g
          | None => Some rep
          end
      | None => py_str it tool_name
      end
  end.

(** Lines 187 to 190: a string is decoded as JSON, anything else is kept
    unless it is false; the empty dict when decoding raises. *)
Definition parse_args (raw_args : pyval) : pyval :=
  match raw_args with
  | PStr s =>
      match json_loads s with
      | Some v => v
      | None => PDict []
      end
  | _ => py_or raw_args (PDict [])
  end.

(** Line 201: [from:] and the sender between double quotes. *)
Definition sender_query (sender : string) : string :=
  "from:" ++ String dquote (sender ++ String dquote EmptyString).

(** Lines 196 to 205: the query built from the question. *)
Definition default_query (question : string) : string :=
  match re_search pat_sender question with
  | Some g =>
      let sender := strip is_sender_trim (strip is_space g) in
      sender_query sender
  | None => question
  end.

Inductive resolution : Type :=
| Resolved (tool_name : string) (args : pyval)
| NoToolIdentified
| MissingRequiredArgument
| Raised.

(** Lines 193 to 212 *)
Definition apply_defaults (tool_name : string) (args : pyval) (question : string)
  : resolution :=
  if negb (truthy args) then
    if String.eqb tool_name "search_emails" then
      Resolved tool_name
        (PDict [("query", PStr (default_query question)); ("max_results", PInt 5)])
    else if String.eqb tool_name "get_unread_emails" then
      Resolved tool_name (PDict [("max_results", PInt 5)])
    else if String.eqb tool_name "get_email_full" then
      MissingRequiredArgument
    else Resolved tool_name args
  else Resolved tool_name args.

(** Lines 82 to 107: the name and the raw arguments read from the
    attributes of the tool call. *)
Definition attr_name (tool_call : pyval) : pyval :=
  first_truthy_attr tool_call name_attrs.

Definition attr_args (tool_call : pyval) : pyval :=
  py_or (py_getattr tool_call "arguments") (py_getattr tool_call "args").

(** Lines 80 to 179: the tool name ([None] for Python's [None]) and the raw
    arguments; the outer [None] is an exception leaving [ask_llm]. *)
Definition extract (it : interp) (tool_call : pyval) : option (option string * pyval) :=
  let tc_dict := tc_dict_of it tool_call in
  let (tool_name, raw_args) :=
    prefer_dict tc_dict (attr_name tool_call) (attr_args tool_call) in
  match unnest_name it tool_name with
  | None => None
  | Some tool_name =>
      match normalize_raw_args it tc_dict raw_args with
      | None => None
      | Some raw_args => Some (sanitize_name it tool_name, raw_args)
      end
  end.

(** Lines 80 to 212 *)
Definition resolve (it : interp) (tool_call : pyval) (question : string) : resolution :=
  match extract it tool_call with
  | None => Raised
  | Some (None, _) => NoToolIdentified
  | Some (Some tool_name, raw_args) =>
      if nonempty tool_name
      then apply_defaults tool_name (parse_args raw_args) question
      else NoToolIdentified
  end.

(** ** Dispatch and the whole of [ask_llm] *)

(** The message of the first completion: its tool calls (none when the
    attribute is missing, [None] or empty) and its text. *)
Record message : Type := {
  tool_calls : list pyval;
  content : string
}.

(** What [requests.post] returns: a status and the decoded JSON body, [None]
    when the body is not JSON. *)
Inductive response : Type :=
| Response (status : Z) (json : option pyval).

(** The services [ask_llm] calls: the completion that is given the tools,
    [requests.post] on a URL with an optional JSON body ([None] when the call
    raises), and the completion that answers from the tool output.  Here the
    two completions return; [raising_services] below lets them raise. *)
Record services : Type := {
  chat_tools : string -> message;
  post : string -> option pyval -> option response;
  chat_final : string -> string -> pyval -> string
}.

Inductive dispatch_failure : Type :=
| TransportError
| StatusError (status : Z)
| DecodeError.

(** The lines [ask_llm] prints. *)
Inductive line : Type :=
| UserLine (question : string)
| NoToolNameLine
| NeedsMessageIdLine
| DecidedLine (tool_name : string) (args : pyval)
| ErrorCallingLine (e : dispatch_failure)
| FinalAnswerLine (answer : string)
| LlmAnswerLine (answer : string).

(** What [ask_llm] does that can be seen from outside, in order. *)
Inductive event : Type :=
| Print (l : line)
| ChatTools (question : string)
| Post (endpoint : string) (body : option pyval)
| ChatFinal (question tool_name : string) (data : pyval).

(** A run of [ask_llm]: its events, and whether it ended by an exception
    instead of returning. *)
Record run : Type := {
  trace : list event;
  raised : bool
}.

Definition MCP_BASE : string := "http://localhost:8000/tools".

(** Line 217 *)
Definition endpoint_of (tool_name : string) : string :=
  MCP_BASE ++ "/" ++ tool_name.

(** Lines 221 to 224: the body that is posted, none when the arguments are
    false. *)
Definition body_of (args : pyval) : option pyval :=
  if truthy args then Some args else None.

(** [resp.raise_for_status()] raises for the client and server error
    statuses, 400 to 599, which are the statuses for which [resp.ok] is
    false. *)
Definition raise_for_status (status : Z) : bool :=
  (400 <=? status) && (status <? 600).

(** Lines 219 to 229 *)
Definition dispatch (sv : services) (tool_name : string) (args : pyval)
  : pyval + dispatch_failure :=
  match post sv (endpoint_of tool_name) (body_of args) with
  | None => inr TransportError
  | Some (Response status json) =>
      if raise_for_status status then inr (StatusError status)
      else
        match json with
        | Some data => inl data
        | None => inr DecodeError
        end
  end.

Definition returned (evs : list event) : run := {| trace := evs; raised := false |}.

(** Lines 53 to 247.  Line 214 prints the resolved arguments, which takes
    their [str()]: when that raises, the exception leaves [ask_llm] before
    the POST. *)
Definition ask_llm (it : interp) (sv : services) (question : string) : run :=
  let msg := chat_tools sv question in
  let start := [Print (UserLine question); ChatTools question] in
  match tool_calls msg with
  | tool_call :: _ =>
      match resolve it tool_call question with
      | Raised => {| trace := start; raised := true |}
      | NoToolIdentified => returned (start ++ [Print NoToolNameLine])%list
      | MissingRequiredArgument => returned (start ++ [Print NeedsMessageIdLine])%list
      | Resolved tool_name args =>
          match py_str it args with
          | None => {| trace := start; raised := true |}
          | Some _ =>
              let called :=
                (start ++ [Print (DecidedLine tool_name args);
                           Post (endpoint_of tool_name) (body_of args)])%list in
              match dispatch sv tool_name args with
              | inr e => returned (called ++ [Print (ErrorCallingLine e)])%list
              | inl data =>
                  returned
                    (called ++ [ChatFinal question tool_name data;
                                Print (FinalAnswerLine
                                         (chat_final sv question tool_name data))])%list
              end
          end
      end
  | [] => returned (start ++ [Print (LlmAnswerLine (content msg))])%list
  end.

(** The calls of [requests.post] in a trace, and whether the follow-up
    completion was made. *)
Definition is_post (e : event) : bool :=
  match e with Post _ _ => true | _ => false end.

Definition is_chat_final (e : event) : bool :=
  match e with ChatFinal _ _ _ => true | _ => false end.

Definition posts (r : run) : list event := filter is_post (trace r).

Definition known_tool (tool_name : string) : bool :=
  String.eqb tool_name "get_unread_emails"
  || String.eqb tool_name "search_emails"
  || String.eqb tool_name "get_email_full".

Definition is_mapping (v : pyval) : bool :=
  match v with PDict _ => true | _ => false end.

(** ** Runtimes and tool calls used as concrete inputs *)

(** An interpreter for inputs where neither the text of a float or of a
    container nor the conversion of a list is looked at: the text is a
    placeholder and the conversion raises. *)
Definition no_builtins : interp :=
  {| str_builtin := fun _ => "..."; dict_of_list := fun _ => None |}.

(** An object with the given attributes and nothing else: not callable, not
    convertible to a dict, printed as [text], true. *)
Definition plain_object (attrs : pydict) (text : string) : pyval :=
  PObj attrs None None (Some text) true.

(** A method that returns [v]. *)
Definition method (v : pyval) : pyval :=
  PObj [] (Some v) None (Some "<bound method>") true.

(** Services whose first completion asks for the tool call [tc] and whose
    endpoint answers every request with [resp]. *)
Definition stub_services (tc : pyval) (resp : option response) : services :=
  {| chat_tools := fun _ => {| tool_calls := [tc]; content := EmptyString |};
     post := fun _ _ => resp;
     chat_final := fun _ _ _ => "answer" |}.

(** The tool call of the completion API: an object with [id], [type] and a
    [function] object that has [name] and [arguments], and a [model_dump]
    method returning the same as nested dicts. *)
Definition sdk_tool_call (name arguments : string) : pyval :=
  PObj [("id", PStr "call_1"); ("type", PStr "function");
        ("function", plain_object [("name", PStr name); ("arguments", PStr arguments)]
                                  "Function(...)");
        ("model_dump",
         method (PDict [("id", PStr "call_1");
                        ("function", PDict [("name", PStr name); ("arguments", PStr arguments)]);
                        ("type", PStr "function")]))]
       None None (Some "ChatCompletionMessageToolCall(...)") true.

(** ** Inputs and predicates of the statements *)

(** A tool call naming a tool that does not exist, with a JSON array as
    arguments; and one with the JSON constant [null] as arguments. *)
Definition unknown_tool_call : pyval :=
  plain_object [("name", PStr "archive_all"); ("arguments", PStr "[1]")] "ToolCall".

Definition unknown_tool_call_null : pyval :=
  plain_object [("name", PStr "archive_all"); ("arguments", PStr "null")] "ToolCall".

Definition ok_response : option response := Some (Response 200 (Some (PDict []))).

(** A tool call whose [model_dump()] returns a list, and that has neither
    [arguments] nor [args]. *)
Definition dump_not_a_dict : pyval :=
  PObj [("function", PStr "search_emails"); ("model_dump", method (PList []))]
       None None (Some "ToolCall") true.

(** A place of a tool call: an attribute, the [name] attribute of an object
    under an attribute, a key of a dict under an attribute, a key of the tool
    call when it is a dict, a key of a dict under such a key, and the last
    two for the dict that a method [m] of the tool call returns. *)
Inductive location : Type :=
| Attr (a : string)
| AttrObject (a : string)
| AttrDict (a k : string)
| Key (k : string)
| KeyDict (k k' : string)
| DumpKey (m k : string)
| DumpKeyDict (m k k' : string).

(** The tool call that carries [name] at the place [loc] and nothing else. *)
Definition expose (loc : location) (name : string) : pyval :=
  match loc with
  | Attr a => plain_object [(a, PStr name)] "ToolCall"
  | AttrObject a =>
      plain_object [(a, plain_object [("name", PStr name)] "Function")] "ToolCall"
  | AttrDict a k => plain_object [(a, PDict [(k, PStr name)])] "ToolCall"
  | Key k => PDict [(k, PStr name)]
  | KeyDict k k' => PDict [(k, PDict [(k', PStr name)])]
  | DumpKey m k => plain_object [(m, method (PDict [(k, PStr name)]))] "ToolCall"
  | DumpKeyDict m k k' =>
      plain_object [(m, method (PDict [(k, PDict [(k', PStr name)])]))] "ToolCall"
  end.

Definition mem (x : string) (l : list string) : bool := existsb (String.eqb x) l.

(** The places [ask_llm] reads: the four attributes, plain or holding an
    object with [name] or a dict with [name] or [tool]; the keys [name],
    [tool] and [function] of a dict, the first two also holding a dict with
    [name] or [tool]; the same keys of the dict returned by [model_dump()]
    or [dict()]. *)
Definition supported (loc : location) : bool :=
  match loc with
  | Attr a => mem a name_attrs
  | AttrObject a => mem a name_attrs
  | AttrDict a k => mem a name_attrs && mem k ["name"; "tool"]
  | Key k => mem k ["name"; "tool"; "function"]
  | KeyDict k k' => mem k ["name"; "tool"] && mem k' ["name"; "tool"]
  | DumpKey m k => mem m ["model_dump"; "dict"] && mem k ["name"; "tool"; "function"]
  | DumpKeyDict m k k' =>
      mem m ["model_dump"; "dict"] && (mem k ["name"; "tool"] && mem k' ["name"; "tool"])
  end.

Definition printed_function : string := "Function(name='search_emails', arguments={})".

Definition starts_in (p : ascii -> bool) (s : string) : bool :=
  match s with String c _ => p c | EmptyString => false end.

Definition ends_in (p : ascii -> bool) (s : string) : bool :=
  match last_char s with Some c => p c | None => false end.

Definition is_ascii (c : ascii) : bool := code c <? 128.

(** Neither [f] nor [F]. *)
Definition not_f (c : ascii) : bool := negb (eqb_ci "f" c).

(** [kw] is the word [from] in some mix of upper and lower case. *)
Definition spells_from (kw : string) : bool :=
  match strip_prefix eqb_ci "from" kw with
  | Some EmptyString => true
  | _ => false
  end.

(** In the text [pre ++ tail], the pattern matches at no position of [pre]. *)
Fixpoint no_match_in {A : Type} (pat : option ascii -> string -> option A)
    (prev : option ascii) (pre tail : string) : bool :=
  match pre with
  | EmptyString => true
  | String c r =>
      match pat prev (pre ++ tail) with
      | Some _ => false
      | None => no_match_in pat (Some c) r tail
      end
  end.

(** The follow-up completions of a run. *)
Definition finals (r : run) : list event := filter is_chat_final (trace r).

(** Services whose first completion asks for the tool calls [tcs], in this
    order, and whose endpoint answers every request with [resp]. *)
Definition stub_services_many (tcs : list pyval) (resp : option response) : services :=
  {| chat_tools := fun _ => {| tool_calls := tcs; content := EmptyString |};
     post := fun _ _ => resp;
     chat_final := fun _ _ _ => "answer" |}.

Definition no_dquote (c : ascii) : bool := negb (Ascii.eqb c dquote).

(** ** The script around [ask_llm] (lines 250 to 284 of client.py) *)

(** [sep.join(words)] *)
Fixpoint join (sep : string) (words : list string) : string :=
  match words with
  | [] => EmptyString
  | [w] => w
  | w :: rest => w ++ sep ++ join sep rest
  end.

(** [s.lower()] *)
Fixpoint lower_str (s : string) : string :=
  match s with
  | EmptyString => EmptyString
  | String c r => String (lower c) (lower_str r)
  end.

(** Line 280: [q.lower() in ("exit", "quit")] *)
Definition is_quit (q : string) : bool :=
  String.eqb (lower_str q) "exit" || String.eqb (lower_str q) "quit".

(** The lines the script itself prints, apart from the prompt. *)
Inductive main_line : Type :=
| NoQuestionLine
| InteractiveLine
| ExitingLine.

(** What the script does: a call of [ask_llm] with its run, or a line. *)
Inductive main_event : Type :=
| Asked (question : string) (r : run)
| Said (l : main_line).

(** A session of the script: its events, and whether an exception left it. *)
Record session : Type := {
  log : list main_event;
  died : bool
}.

Definition and_then (e : main_event) (s : session) : session :=
  {| log := e :: log s; died := died s |}.

(** Lines 276 to 284: the loop of the interactive mode, on the lines typed
    at the prompt.  At the end of the lines [input] raises [EOFError], which
    the handler of line 283 answers with the closing line; an exception that
    leaves [ask_llm] is not handled and leaves the script. *)
Fixpoint interactive (it : interp) (sv : services) (typed : list string) : session :=
  match typed with
  | [] => {| log := [Said ExitingLine]; died := false |}
  | l :: rest =>
      let q := strip is_space l in
      if negb (nonempty q) then interactive it sv rest
      else if is_quit q then {| log := []; died := false |}
      else
        let r := ask_llm it sv q in
        if raised r then {| log := [Asked q r]; died := true |}
        else and_then (Asked q r) (interactive it sv rest)
  end.

(** Lines 250 to 284, after the command line is parsed: [question] is the
    list of the words given on the command line, [isatty] tells whether the
    standard input is a terminal, [stdin] is the text piped to the script
    and [typed] the lines typed at its prompt. *)
Definition main (it : interp) (sv : services) (question : list string)
    (isatty : bool) (stdin : string) (typed : list string) : session :=
  match question with
  | _ :: _ =>
      let q := join " " question in
      {| log := [Asked q (ask_llm it sv q)]; died := raised (ask_llm it sv q) |}
  | [] =>
      if negb isatty then
        let q := strip is_space stdin in
        if nonempty q
        then {| log := [Asked q (ask_llm it sv q)]; died := raised (ask_llm it sv q) |}
        else {| log := [Said NoQuestionLine]; died := false |}
      else and_then (Said InteractiveLine) (interactive it sv typed)
  end.

(** The questions of a session, in order. *)
Fixpoint asked (evs : list main_event) : list string :=
  match evs with
  | [] => []
  | Asked q _ :: rest => q :: asked rest
  | Said _ :: rest => asked rest
  end.

(** The items of a list before the first one that [stop] accepts. *)
Fixpoint take_until {A : Type} (stop : A -> bool) (l : list A) : list A :=
  match l with
  | [] => []
  | x :: r => if stop x then [] else x :: take_until stop r
  end.

(** ** MCP_3/gmail_tools.py and MCP_GAMIL_TOOL/mcp_server.py

    The resources of the Gmail API are modelled by the fields the code
    reads.  A field that a resource may omit is an [option] ([None] when the
    key is missing); where the code cannot tell a missing list, text or dict
    from an empty one ([parts], [filename], [body], [payload]) the empty one
    stands for both.  The requests to Gmail and the decoding of base64 text
    are parameters. *)

Module Gmail.

(** [s[:n]] on a string: for a negative [n] the last [-n] characters are
    dropped.  The cut counts the characters of the [string], which are the
    characters of the Python text when it is ASCII. *)
Fixpoint take_str (n : nat) (s : string) : string :=
  match n, s with
  | O, _ => EmptyString
  | S n', String c r => String c (take_str n' r)
  | S _, EmptyString => EmptyString
  end.

Definition slice_to (n : Z) (s : string) : string :=
  let len := Z.of_nat (String.length s) in
  take_str (Z.to_nat (if n <? 0 then len + n else n)) s.

(** The separator of the lines: a line feed. *)
Definition nl : string := String "010" EmptyString.

(** Truth value of a text that may be missing. *)
Definition some_text (o : option string) : bool :=
  match o with Some s => nonempty s | None => false end.

(** [str(v)] for a text that may be [None]. *)
Definition str_opt (o : option string) : string :=
  match o with Some s => s | None => "None" end.

(** An entry of the [headers] list of a message part. *)
Record header : Type := {
  name : option string;
  value : option string
}.

(** The dict built by [_get_headers_map]: from header names to header
    values, [None] standing for a missing [name] or [value]. *)
Definition headers_map : Type := list (option string * option string).

Definition key_eqb (a b : option string) : bool :=
  match a, b with
  | Some x, Some y => String.eqb x y
  | None, None => true
  | _, _ => false
  end.

(** [m[k] = v] *)
Fixpoint map_set (m : headers_map) (k v : option string) : headers_map :=
  match m with
  | [] => [(k, v)]
  | (k', v') :: m' =>
      if key_eqb k k' then (k', v) :: m' else (k', v') :: map_set m' k v
  end.

(** The value under [k]; the outer [None] when the key is missing. *)
Fixpoint map_get (m : headers_map) (k : option string) : option (option string) :=
  match m with
  | [] => None
  | (k', v) :: m' => if key_eqb k k' then Some v else map_get m' k
  end.

(** Lines 6 and 7 *)
Definition _get_headers_map (headers : list header) : headers_map :=
  fold_left (fun m h => map_set m (name h) (value h)) headers [].

(** The [body] of a message part. *)
Record body : Type := {
  attachmentId : option string;
  size : option Z;
  data : option string
}.

Definition empty_body : body :=
  {| attachmentId := None; size := None; data := None |}.

(** Truth value of a body dict: it has some key. *)
Definition body_truthy (b : body) : bool :=
  match attachmentId b, size b, data b with
  | None, None, None => false
  | _, _, _ => true
  end.

(** A message part: [partId], [mimeType], [filename], [headers], [body] and
    the child [parts]. *)
Inductive part : Type :=
| Part (partId : option string) (mimeType : option string) (filename : string)
       (headers : list header) (part_body : body) (parts : list part).

Definition empty_part : part := Part None None EmptyString [] empty_body [].

Definition part_headers (p : part) : list header :=
  match p with Part _ _ _ hs _ _ => hs end.


(** Truth value of a payload dict: it has some key. *)
Definition part_truthy (p : part) : bool :=
  match p with
  | Part None None EmptyString [] b [] => body_truthy b
  | _ => true
  end.

(** [base64.urlsafe_b64decode(data + '==').decode("utf-8", errors="replace")]:
    the decoded text, [None] when the decoding raises. *)
Definition codec : Type := string -> option string.

(** Lines 20 to 26: the condition under which a payload is decoded. *)
Definition is_text_plain (p : part) : bool :=
  match p with
  | Part _ mime _ _ b _ =>
      String.eqb (match mime with Some m => m | None => EmptyString end) "text/plain"
      && some_text (data b)
  end.

(** Lines 10 to 35 *)
Fixpoint _extract_text_from_payload (decode : codec) (payload : part) : string :=
  if negb (part_truthy payload) then EmptyString
  else
    match payload with
    | Part _ mime _ _ b ps =>
        if is_text_plain payload then
          match decode (match data b with Some d => d | None => EmptyString end) with
          | Some decoded => decoded
          | None => EmptyString
          end
        else
          join nl
            ((fix texts (l : list part) : list string :=
                match l with
                | [] => []
                | p :: r =>
                    let part_text := _extract_text_from_payload decode p in
                    if nonempty part_text then part_text :: texts r else texts r
                end) ps)
    end.

(** A reference to a message in the answer of [messages().list]. *)
Record message_ref : Type := {
  ref_id : string;
  ref_threadId : option string
}.

(** A message as [messages().get] returns it. *)
Record message : Type := {
  m_id : option string;
  m_threadId : option string;
  m_snippet : option string;
  payload : part
}.

(** The requests to Gmail, [None] when [execute()] raises: the list of the
    messages for a query, labels and a limit; a message by id in a format
    with the metadata headers asked for; the [data] of an attachment of a
    message. *)
Record service : Type := {
  messages_list : option string -> list string -> option Z -> option (list message_ref);
  messages_get : string -> string -> list string -> option message;
  attachments_get : string -> string -> option (option string)
}.

(** The summary of a message in the results of [list_unread_emails] and
    [search_emails]. *)
Record summary : Type := {
  s_id : string;
  s_threadId : option string;
  s_headers : headers_map;
  s_snippet : option string
}.

Definition metadata_headers : list string := ["From"; "To"; "Subject"; "Date"].

(** The loops of lines 54 to 69 and 159 to 172; [snippet_of] is what each
    function reads as the snippet.  A request that raises leaves the
    function. *)
Fixpoint summaries (sv : service) (snippet_of : message -> option string)
    (messages : list message_ref) : option (list summary) :=
  match messages with
  | [] => Some []
  | msg :: rest =>
      match messages_get sv (ref_id msg) "metadata" metadata_headers with
      | None => None
      | Some d =>
          match summaries sv snippet_of rest with
          | None => None
          | Some l =>
              Some ({| s_id := ref_id msg;
                       s_threadId := ref_threadId msg;
                       s_headers := _get_headers_map (part_headers (payload d));
                       s_snippet := snippet_of d |} :: l)
          end
      end
  end.

(** Lines 38 to 71; the snippet is [data.get("snippet", "")]. *)
Definition list_unread_emails (sv : service) (max_results : option Z)
  : option (list summary) :=
  match messages_list sv None ["UNREAD"] max_results with
  | None => None
  | Some messages =>
      summaries sv (fun d => Some (match m_snippet d with
                                   | Some t => t
                                   | None => EmptyString
                                   end)) messages
  end.

(** Lines 148 to 174; the snippet is [data.get("snippet")]. *)
Definition search_emails (sv : service) (query : string) (max_results : option Z)
  : option (list summary) :=
  match messages_list sv (Some query) [] max_results with
  | None => None
  | Some messages => summaries sv m_snippet messages
  end.

(** Lines 206 and 207 *)
Definition get_unread_emails (sv : service) (max_results : option Z)
  : option (list summary) :=
  list_unread_emails sv max_results.

(** An entry of the [attachments] list of [get_email_full]; the outer
    [None] of [content_preview] is a missing key. *)
Record attachment : Type := {
  a_filename : string;
  a_mimeType : option string;
  a_attachmentId : option string;
  a_size : option Z;
  content_preview : option (option string)
}.




(** The dict [get_email_full] returns. *)
Record email : Type := {
  e_id : option string;
  e_threadId : option string;
  e_headers : headers_map;
  e_body : string;
  e_attachments : list attachment;
  e_snippet : option string
}.


(** What [build_context_for_llm] reads of its [email] argument, which is a
    result of [get_email_full] or a summary: the headers (none when the key
    is missing), the snippet and the body ([None] when missing or [None]),
    the attachments (none when the key is missing). *)
Record email_view : Type := {
  v_headers : headers_map;
  v_snippet : option string;
  v_body : option string;
  v_attachments : list attachment
}.

Definition view_of_email (e : email) : email_view :=
  {| v_headers := e_headers e;
     v_snippet := e_snippet e;
     v_body := Some (e_body e);
     v_attachments := e_attachments e |}.

Definition view_of_summary (s : summary) : email_view :=
  {| v_headers := s_headers s;
     v_snippet := s_snippet s;
     v_body := None;
     v_attachments := [] |}.

(** [headers.get(k, default)] formatted in an f-string. *)
Definition header_or (m : headers_map) (k default : string) : string :=
  match map_get m (Some k) with
  | Some v => str_opt v
  | None => default
  end.

(** Lines 196 to 200 *)
Definition attachment_line (a : attachment) (attachment_preview_chars : Z) : string :=
  let preview := match content_preview a with Some p => p | None => None end in
  "- " ++ a_filename a ++ " (" ++ str_opt (a_mimeType a) ++ "): "
  ++ (if some_text preview
      then slice_to attachment_preview_chars
             (match preview with Some t => t | None => EmptyString end)
      else "(no text preview available)").

(** Lines 177 to 202 *)
Definition build_context_for_llm (email : email_view) (include_attachments : bool)
    (attachment_preview_chars : Z) : string :=
  let headers := v_headers email in
  let subject := header_or headers "Subject" "(no subject)" in
  let sender := header_or headers "From" "(unknown sender)" in
  let date := header_or headers "Date" "(unknown date)" in
  let snippet := v_snippet email in
  let body :=
    if some_text (v_body email) then v_body email
    else if some_text snippet then snippet
    else Some EmptyString in
  let ctx :=
    ["Subject: " ++ subject; "From: " ++ sender; "Date: " ++ date; EmptyString;
     "Body:"; slice_to 2000 (match body with Some t => t | None => EmptyString end)] in
  let atts :=
    if include_attachments then
      match v_attachments email with
      | [] => []
      | _ :: _ =>
          String "010" "Attachments:"
          :: map (fun a => attachment_line a attachment_preview_chars) (v_attachments email)
      end
    else [] in
  join nl (ctx ++ atts)%list.

(** mcp_server.py, lines 8 to 14: the answer of the endpoint
    [/tools/get_unread_emails], which takes no argument from the request. *)
Definition unread_emails (sv : service) : option (Z * list summary) :=
  match get_unread_emails sv (Some 5) with
  | Some emails => Some (Z.of_nat (List.length emails), emails)
  | None => None
  end.

(** mcp_server.py, lines 20 to 26: the answer of the endpoint
    [/tools/search_emails] for a validated request. *)
Definition search_emails_endpoint (sv : service) (query : string) (max_results : option Z)
  : option (Z * list summary) :=
  match search_emails sv query max_results with
  | Some results => Some (Z.of_nat (List.length results), results)
  | None => None
  end.

(** The text/plain parts with data of a payload, in document order; what is
    under such a part is not looked at. *)
Fixpoint text_parts (p : part) : list part :=
  if is_text_plain p then [p]
  else
    match p with
    | Part _ _ _ _ _ ps =>
        (fix go (l : list part) : list part :=
           match l with
           | [] => []
           | x :: r => (text_parts x ++ go r)%list
           end) ps
    end.

(** The decoded text of a text/plain part, empty when the decoding raises. *)
Definition decoded_text (decode : codec) (p : part) : string :=
  match p with
  | Part _ _ _ _ b _ =>
      match decode (match data b with Some d => d | None => EmptyString end) with
      | Some t => t
      | None => EmptyString
      end
  end.

End Gmail.


(** A message with a text part, an HTML part and an attached file; a
    service that lists two messages and answers every fetch with this
    message; a decoding that returns its input. *)
Definition sample_payload : Gmail.part :=
  Gmail.Part None (Some "multipart/mixed") EmptyString
    [{| Gmail.name := Some "Subject"; Gmail.value := Some "Budget" |};
     {| Gmail.name := Some "From"; Gmail.value := Some "alice@example.com" |}]
    Gmail.empty_body
    [Gmail.Part (Some "0") (Some "text/plain") EmptyString []
       {| Gmail.attachmentId := None; Gmail.size := Some 5; Gmail.data := Some "SGVsbG8" |} [];
     Gmail.Part (Some "1") (Some "text/html") EmptyString []
       {| Gmail.attachmentId := None; Gmail.size := Some 12; Gmail.data := Some "PGI-SGk8L2I-" |} [];
     Gmail.Part (Some "2") (Some "text/csv") "budget.csv" []
       {| Gmail.attachmentId := Some "att-1"; Gmail.size := Some 9; Gmail.data := None |} []].

Definition sample_message : Gmail.message :=
  {| Gmail.m_id := Some "m1"; Gmail.m_threadId := Some "t1";
     Gmail.m_snippet := None; Gmail.payload := sample_payload |}.

Definition sample_service : Gmail.service :=
  {| Gmail.messages_list := fun _ _ _ =>
       Some [{| Gmail.ref_id := "m1"; Gmail.ref_threadId := Some "t1" |};
             {| Gmail.ref_id := "m2"; Gmail.ref_threadId := None |}];
     Gmail.messages_get := fun _ _ _ => Some sample_message;
     Gmail.attachments_get := fun _ _ => Some (Some "YSxiLGM") |}.

Definition sample_decode : Gmail.codec := fun d => Some d.

(** The text made of [n] times the character [c]. *)
Fixpoint repeat_char (c : ascii) (n : nat) : string :=
  match n with
  | O => EmptyString
  | S n' => String c (repeat_char c n')
  end.

(** ** The places the name is read from, in the order they are probed *)

(** Lines 111 and 113: the entries of the dict view that can give the name,
    [function] only when it is a string.  A dict view that is not a dict
    gives none: its [get] raises and the handler of line 117 goes on. *)
Definition dict_places (tc_dict : pyval) : list pyval :=
  match tc_dict with
  | PDict d =>
      [dict_get d "name"; dict_get d "tool";
       if is_str (dict_get d "function") then dict_get d "function" else PNone]
  | _ => []
  end.

(** The values at the places the code reads: the entries [name], [tool] and
    [function] of the dict view, which line 113 prefers, then the attributes
    [name], [tool], [function] and [tool_name] of line 101. *)
Definition read_places (it : interp) (tool_call : pyval) : list pyval :=
  (dict_places (tc_dict_of it tool_call)
   ++ [py_getattr tool_call "name"; py_getattr tool_call "tool";
       py_getattr tool_call "function"; py_getattr tool_call "tool_name"])%list.

(** The first true value of a list, [None] when there is none. *)
Definition first_truthy (l : list pyval) : pyval :=
  match find truthy l with
  | Some v => v
  | None => PNone
  end.

(** The name a value holds: the value itself when it is a string, the entry
    [name] or [tool] of a dict, the attribute [name] of an object. *)
Definition carried_name (v : pyval) : option string :=
  match v with
  | PStr n => Some n
  | PDict d =>
      match py_or (dict_get d "name") (dict_get d "tool") with
      | PStr n => Some n
      | _ => None
      end
  | PObj attrs _ _ _ _ =>
      match dict_get attrs "name" with
      | PStr n => if nonempty n then Some n else None
      | _ => None
      end
  | _ => None
  end.

(** Lines 107 to 152: the raw arguments of a tool call, [None] when reading
    them raises. *)
Definition raw_args_of (it : interp) (tool_call : pyval) : option pyval :=
  normalize_raw_args it (tc_dict_of it tool_call)
    (snd (prefer_dict (tc_dict_of it tool_call) (attr_name tool_call) (attr_args tool_call))).

(** A character other than the opening parenthesis and the capital C: each
    of the four marks that line 159 looks for contains one of the two. *)
Definition is_plain (c : ascii) : bool :=
  negb (Ascii.eqb c "(" || Ascii.eqb c "C").

(** ** Characters and words written out *)

(** One of two characters. *)
Definition either (a b c : ascii) : bool := Ascii.eqb c a || Ascii.eqb c b.

(** The word [from] written with any capitals: four characters, [f] or [F],
    [r] or [R], [o] or [O], [m] or [M]. *)
Definition is_from_word (kw : string) : bool :=
  match kw with
  | String a (String b (String c (String d EmptyString))) =>
      either "f" "F" a && either "r" "R" b && either "o" "O" c && either "m" "M" d
  | _ => false
  end.




Definition is_dot (c : ascii) : bool := Ascii.eqb c ".".

(** One of the characters of a list. *)
Definition one_of (l : list ascii) (c : ascii) : bool := existsb (Ascii.eqb c) l.

(** The four characters of the argument of [strip] on line 200. *)
Definition trim_chars : list ascii := [dquote; "'"; "?"; "."]%char.

(** The marks of line 159, and the optional quote of line 160. *)
Definition repr_marks : list string :=
  ["Function("; "function("; "ToolCall("; "ChatCompletion"].

Definition name_quotes : list string :=
  [EmptyString; "'"; String dquote EmptyString].

(** ** [ask_llm] when a completion can raise *)

(** The services with completions that can raise: [None] is the exception
    of the call, or of reading the message or its content out of the
    answer (lines 57 to 74 and 232 to 243, all outside any [try]). *)
Record raising_services : Type := {
  r_chat_tools : string -> option message;
  r_post : string -> option pyval -> option response;
  r_chat_final : string -> string -> pyval -> option string
}.

(** Lines 219 to 229 *)
Definition dispatch_raising (sv : raising_services) (tool_name : string) (args : pyval)
  : pyval + dispatch_failure :=
  match r_post sv (endpoint_of tool_name) (body_of args) with
  | None => inr TransportError
  | Some (Response status json) =>
      if raise_for_status status then inr (StatusError status)
      else
        match json with
        | Some data => inl data
        | None => inr DecodeError
        end
  end.

(** Lines 53 to 247: an exception of the first completion leaves [ask_llm]
    after the first line is printed, one of the follow-up completion after
    the POST. *)
Definition ask_llm_raising (it : interp) (sv : raising_services) (question : string) : run :=
  let start := [Print (UserLine question); ChatTools question] in
  match r_chat_tools sv question with
  | None => {| trace := start; raised := true |}
  | Some msg =>
      match tool_calls msg with
      | tool_call :: _ =>
          match resolve it tool_call question with
          | Raised => {| trace := start; raised := true |}
          | NoToolIdentified => returned (start ++ [Print NoToolNameLine])%list
          | MissingRequiredArgument => returned (start ++ [Print NeedsMessageIdLine])%list
          | Resolved tool_name args =>
              match py_str it args with
              | None => {| trace := start; raised := true |}
              | Some _ =>
                  let called :=
                    (start ++ [Print (DecidedLine tool_name args);
                               Post (endpoint_of tool_name) (body_of args)])%list in
                  match dispatch_raising sv tool_name args with
                  | inr e => returned (called ++ [Print (ErrorCallingLine e)])%list
                  | inl data =>
                      match r_chat_final sv question tool_name data with
                      | Some answer =>
                          returned
                            (called ++ [ChatFinal question tool_name data;
                                        Print (FinalAnswerLine answer)])%list
                      | None =>
                          {| trace := (called ++ [ChatFinal question tool_name data])%list;
                             raised := true |}
                      end
                  end
              end
          end
      | [] => returned (start ++ [Print (LlmAnswerLine (content msg))])%list
      end
  end.

(** Services whose completions return. *)
Definition returning (sv : services) : raising_services :=
  {| r_chat_tools := fun q => Some (chat_tools sv q);
     r_post := post sv;
     r_chat_final := fun q tool_name data => Some (chat_final sv q tool_name data) |}.


(** * Properties *)

(** ** The scanners of JSON end within their fuel *)

Lemma lstrip_length (p : ascii -> bool) (s : string) :
  (String.length (lstrip p s) <= String.length s)%nat.
Proof.
  induction s as [|c s IH]; simpl; [lia|].
  destruct (p c); simpl; lia.
Qed.

Lemma skip_ws_length (s : string) : (String.length (skip_ws s) <= String.length s)%nat.
Proof. apply lstrip_length. Qed.

Lemma span_length (p : ascii -> bool) (s a b : string) :
  span p s = (a, b) -> (String.length b <= String.length s)%nat.
Proof.
  revert a b. induction s as [|c s IH]; intros a b; simpl.
  - intros H; inversion H; simpl; lia.
  - destruct (p c).
    + destruct (span p s) as [a' b'] eqn:E. intros H; inversion H; subst.
      specialize (IH a' b eq_refl). lia.
    + intros H; inversion H; subst. simpl. lia.
Qed.

Lemma strip_prefix_length (eq : ascii -> ascii -> bool) (lit s r : string) :
  strip_prefix eq lit s = Some r ->
  (String.length r + String.length lit = String.length s)%nat.
Proof.
  revert s. induction lit as [|a lit IH]; intros s; simpl.
  - intros H; inversion H; lia.
  - destruct s as [|c s]; [discriminate|].
    destruct (eq a c); [|discriminate].
    intros H. specialize (IH s H). simpl. lia.
Qed.

Lemma eat_length (c : ascii) (s r : string) :
  eat c s = Some r -> String.length s = S (String.length r).
Proof.
  destruct s as [|c' s]; simpl; [discriminate|].
  destruct (Ascii.eqb c c'); [|discriminate].
  intros H; inversion H; reflexivity.
Qed.

Lemma cons_to_some (k : string -> string) (o : option (string * string)) (t r : string) :
  cons_to k o = Some (t, r) -> exists t', o = Some (t', r).
Proof.
  destruct o as [[t' r']|]; simpl; [|discriminate].
  intros H; inversion H; subst. eexists; reflexivity.
Qed.

Lemma scan_string_length (s t r : string) :
  scan_string s = Some (t, r) -> (String.length r < String.length s)%nat.
Proof.
  remember (String.length s) as n eqn:Hn.
  revert s t r Hn. induction n as [n IH] using lt_wf_ind.
  intros s t r Hn.
  assert (forall k s' t r, (String.length s' < n)%nat ->
            cons_to k (scan_string s') = Some (t, r) ->
            (String.length r < String.length s')%nat) as Hrec.
  { intros k s' t0 r0 Hlt H. apply cons_to_some in H. destruct H as [t' H].
    eapply IH; [exact Hlt | reflexivity | exact H]. }
  destruct s as [|c s]; [discriminate|].
  simpl in Hn. cbn [scan_string].
  destruct (Ascii.eqb c dquote).
  { intros H; inversion H; subst. lia. }
  destruct (Ascii.eqb c backslash).
  - destruct s as [|e s]; [discriminate|].
    destruct (Ascii.eqb e "u").
    + destruct s as [|h1 [|h2 [|h3 [|h4 r2]]]]; try discriminate.
      destruct (hex4 h1 h2 h3 h4) as [u|]; [|discriminate].
      simpl in Hn.
      destruct r2 as [|b [|e2 [|g1 [|g2 [|g3 [|g4 r3]]]]]];
        try (intros H; apply Hrec in H; simpl in *; lia).
      destruct (Ascii.eqb b backslash && Ascii.eqb e2 "u" && is_high_surrogate u).
      * destruct (hex4 g1 g2 g3 g4) as [u2|]; [|discriminate].
        destruct (is_low_surrogate u2);
          intros H; apply Hrec in H; simpl in *; lia.
      * intros H; apply Hrec in H; simpl in *; lia.
    + destruct (unescape e); [|discriminate].
      intros H; apply Hrec in H; simpl in *; lia.
  - destruct (code c <? 32)%Z; [discriminate|].
    intros H; apply Hrec in H; simpl in *; lia.
Qed.

Lemma scan_int_part_length (s ip r : string) :
  scan_int_part s = Some (ip, r) -> (String.length r < String.length s)%nat.
Proof.
  destruct s as [|c s]; simpl; [discriminate|].
  destruct (Ascii.eqb c "0").
  - intros H; inversion H; lia.
  - destruct (is_digit c) eqn:Hd; [|discriminate].
    destruct (span is_digit s) as [a b] eqn:E.
    intros H; inversion H; subst. apply span_length in E. lia.
Qed.

Lemma scan_frac_length (s fp r : string) :
  scan_frac s = Some (fp, r) -> (String.length r <= String.length s)%nat.
Proof.
  unfold scan_frac. destruct (eat "." s) as [r0|] eqn:E; [|discriminate].
  apply eat_length in E.
  destruct (span is_digit r0) as [a b] eqn:Es.
  destruct (nonempty a); [|discriminate].
  intros H; inversion H; subst. apply span_length in Es. lia.
Qed.

Lemma scan_exp_length (s r : string) (ex : Z) :
  scan_exp s = Some (ex, r) -> (String.length r <= String.length s)%nat.
Proof.
  destruct s as [|c s]; simpl; [discriminate|].
  destruct (Ascii.eqb c "e" || Ascii.eqb c "E"); [|discriminate].
  assert (forall sg r1, (String.length r1 <= String.length s)%nat ->
            (let (ds, r2) := span is_digit r1 in
             if nonempty ds then Some ((sg * digits_value ds 0)%Z, r2) else None)
            = Some (ex, r) -> (String.length r <= S (String.length s))%nat) as Hk.
  { intros sg r1 Hle. destruct (span is_digit r1) as [a b] eqn:Es.
    destruct (nonempty a); [|discriminate].
    intros H; inversion H; subst. apply span_length in Es. lia. }
  destruct (eat "-" s) as [t|] eqn:E1.
  { apply eat_length in E1. apply Hk. lia. }
  destruct (eat "+" s) as [t|] eqn:E2.
  { apply eat_length in E2. apply Hk. lia. }
  apply Hk. lia.
Qed.

Lemma scan_number_length (s r : string) (v : pyval) :
  scan_number s = Some (v, r) -> (String.length r < String.length s)%nat.
Proof.
  unfold scan_number.
  assert (exists neg s1, (match eat "-" s with Some t => (true, t) | None => (false, s) end)
                         = (neg, s1) /\ (String.length s1 <= String.length s)%nat)
    as (neg & s1 & -> & Hs1).
  { destruct (eat "-" s) as [t|] eqn:E.
    - exists true, t. split; [reflexivity|]. apply eat_length in E. lia.
    - exists false, s. split; [reflexivity|]. lia. }
  destruct (scan_int_part s1) as [[ip r0]|] eqn:Ei; [|discriminate].
  apply scan_int_part_length in Ei.
  destruct (scan_frac r0) as [[fp r1]|] eqn:Ef.
  - apply scan_frac_length in Ef.
    destruct (scan_exp r1) as [[ex r2]|] eqn:Ee.
    + apply scan_exp_length in Ee. intros H; inversion H; subst. lia.
    + intros H; inversion H; subst. lia.
  - destruct (scan_exp r0) as [[ex r2]|] eqn:Ee.
    + apply scan_exp_length in Ee. intros H; inversion H; subst. lia.
    + intros H; inversion H; subst. lia.
Qed.

Lemma scan_atom_length (s r : string) (v : pyval) :
  scan_atom s = Some (v, r) -> (String.length r < String.length s)%nat.
Proof.
  unfold scan_atom.
  repeat match goal with
         | |- context [strip_prefix Ascii.eqb ?l s] =>
             let E := fresh "E" in
             destruct (strip_prefix Ascii.eqb l s) eqn:E;
             [apply strip_prefix_length in E; simpl in E;
              intros H; inversion H; subst; lia|]
         | |- context [scan_number s] =>
             let E := fresh "E" in
             destruct (scan_number s) as [[v' r']|] eqn:E;
             [apply scan_number_length in E; intros H; inversion H; subst; lia|]
         end.
  discriminate.
Qed.

(** What a scanner leaves is shorter than what it was given. *)
Lemma scanners_length (n : nat) :
  (forall s v r, scan_once n s = Parsed v r -> (String.length r < String.length s)%nat)
  /\ (forall s acc v r, object_items n s acc = Parsed v r ->
                        (String.length r < String.length s)%nat)
  /\ (forall s acc v r, array_items n s acc = Parsed v r ->
                        (String.length r < String.length s)%nat).
Proof.
  induction n as [|n (IH1 & IH2 & IH3)].
  - repeat split; intros; discriminate.
  - repeat split.
    + intros s v r. cbn [scan_once].
      destruct s as [|c s]; [discriminate|].
      destruct (Ascii.eqb c dquote).
      { destruct (scan_string s) as [[t r']|] eqn:E; [|discriminate].
        apply scan_string_length in E. intros H; inversion H; subst. simpl. lia. }
      pose proof (skip_ws_length s) as Hws.
      destruct (Ascii.eqb c "{").
      { destruct (eat "}" (skip_ws s)) as [r'|] eqn:E.
        - apply eat_length in E. intros H; inversion H; subst. simpl. lia.
        - intros H. apply IH2 in H. simpl. lia. }
      destruct (Ascii.eqb c "[").
      { destruct (eat "]" (skip_ws s)) as [r'|] eqn:E.
        - apply eat_length in E. intros H; inversion H; subst. simpl. lia.
        - intros H. apply IH3 in H. simpl. lia. }
      destruct (scan_atom (String c s)) as [[v' r']|] eqn:E; [|discriminate].
      apply scan_atom_length in E. intros H; inversion H; subst. exact E.
    + intros s acc v r. cbn [object_items].
      destruct (eat dquote s) as [r0|] eqn:E0; [|discriminate].
      apply eat_length in E0.
      destruct (scan_string r0) as [[k r1]|] eqn:E1; [|discriminate].
      apply scan_string_length in E1.
      pose proof (skip_ws_length r1) as Hw1.
      destruct (eat ":" (skip_ws r1)) as [r2|] eqn:E2; [|discriminate].
      apply eat_length in E2.
      pose proof (skip_ws_length r2) as Hw2.
      destruct (scan_once n (skip_ws r2)) as [v' r3| |] eqn:E3; try discriminate.
      apply IH1 in E3.
      pose proof (skip_ws_length r3) as Hw3.
      destruct (eat "}" (skip_ws r3)) as [r4|] eqn:E4.
      { apply eat_length in E4. intros H; inversion H; subst. lia. }
      destruct (eat "," (skip_ws r3)) as [r4|] eqn:E5; [|discriminate].
      apply eat_length in E5. pose proof (skip_ws_length r4) as Hw4.
      intros H. apply IH2 in H. lia.
    + intros s acc v r. cbn [array_items].
      destruct (scan_once n s) as [v' r1| |] eqn:E1; try discriminate.
      apply IH1 in E1.
      pose proof (skip_ws_length r1) as Hw1.
      destruct (eat "]" (skip_ws r1)) as [r2|] eqn:E2.
      { apply eat_length in E2. intros H; inversion H; subst. lia. }
      destruct (eat "," (skip_ws r1)) as [r2|] eqn:E3; [|discriminate].
      apply eat_length in E3. pose proof (skip_ws_length r2) as Hw2.
      intros H. apply IH3 in H. lia.
Qed.

(** Fuel: a value needs at most twice the length of the text plus one, the
    items of a container one more. *)
Lemma scanners_fuel (n : nat) :
  (forall s, (2 * String.length s + 1 <= n)%nat -> scan_once n s <> OutOfFuel)
  /\ (forall s acc, (2 * String.length s + 2 <= n)%nat -> object_items n s acc <> OutOfFuel)
  /\ (forall s acc, (2 * String.length s + 2 <= n)%nat -> array_items n s acc <> OutOfFuel).
Proof.
  induction n as [|n (IH1 & IH2 & IH3)].
  - repeat split; intros; lia.
  - repeat split.
    + intros s Hn. cbn [scan_once].
      destruct s as [|c s]; [discriminate|]. simpl in Hn.
      destruct (Ascii.eqb c dquote).
      { destruct (scan_string s) as [[t r']|]; discriminate. }
      pose proof (skip_ws_length s) as Hws.
      destruct (Ascii.eqb c "{").
      { destruct (eat "}" (skip_ws s)); [discriminate|]. apply IH2. lia. }
      destruct (Ascii.eqb c "[").
      { destruct (eat "]" (skip_ws s)); [discriminate|]. apply IH3. lia. }
      destruct (scan_atom (String c s)) as [[v' r']|]; discriminate.
    + intros s acc Hn. cbn [object_items].
      destruct (eat dquote s) as [r0|] eqn:E0; [|discriminate].
      apply eat_length in E0.
      destruct (scan_string r0) as [[k r1]|] eqn:E1; [|discriminate].
      apply scan_string_length in E1.
      pose proof (skip_ws_length r1) as Hw1.
      destruct (eat ":" (skip_ws r1)) as [r2|] eqn:E2; [|discriminate].
      apply eat_length in E2.
      pose proof (skip_ws_length r2) as Hw2.
      destruct (scan_once n (skip_ws r2)) as [v' r3| |] eqn:E3; try discriminate.
      * apply (proj1 (scanners_length n)) in E3.
        pose proof (skip_ws_length r3) as Hw3.
        destruct (eat "}" (skip_ws r3)) as [r4|] eqn:E4; [discriminate|].
        destruct (eat "," (skip_ws r3)) as [r4|] eqn:E5; [|discriminate].
        apply eat_length in E5. pose proof (skip_ws_length r4) as Hw4.
        apply IH2. lia.
      * exfalso. apply (IH1 (skip_ws r2)); [lia | exact E3].
    + intros s acc Hn. cbn [array_items].
      destruct (scan_once n s) as [v' r1| |] eqn:E1; try discriminate.
      * apply (proj1 (scanners_length n)) in E1.
        pose proof (skip_ws_length r1) as Hw1.
        destruct (eat "]" (skip_ws r1)) as [r2|] eqn:E2; [discriminate|].
        destruct (eat "," (skip_ws r1)) as [r2|] eqn:E3; [|discriminate].
        apply eat_length in E3. pose proof (skip_ws_length r2) as Hw2.
        apply IH3. lia.
      * exfalso. apply (IH1 s); [lia | exact E1].
Qed.

(** [json_loads] never runs out of fuel. *)
Lemma json_loads_fuel (s : string) :
  scan_once (2 * String.length s + 2) (skip_ws s) <> OutOfFuel.
Proof.
  apply (proj1 (scanners_fuel _)). pose proof (skip_ws_length s). lia.
Qed.

(** ** Shape of a run *)

Lemma nonempty_true (s : string) : nonempty s = true -> s <> EmptyString.
Proof. destruct s; simpl; congruence. Qed.

Lemma truthy_not_none (v : pyval) : truthy v = true -> v <> PNone.
Proof. destruct v; simpl; congruence. Qed.

(** A resolved name is not empty. *)
Lemma resolve_name_nonempty (it : interp) (tc : pyval) (q name : string) (args : pyval) :
  resolve it tc q = Resolved name args -> nonempty name = true.
Proof.
  unfold resolve.
  destruct (extract it tc) as [[[tn|] raw]|]; try discriminate.
  destruct (nonempty tn) eqn:Hne; try discriminate.
  unfold apply_defaults.
  repeat match goal with
         | |- context [if ?b then _ else _] => destruct b
         end; intros H; inversion H; subst; auto.
Qed.

(** With a known name the resolved arguments are true: true arguments are
    kept, false ones are replaced by defaults or end the resolution. *)
Lemma resolve_known_truthy (it : interp) (tc : pyval) (q name : string) (args : pyval) :
  resolve it tc q = Resolved name args -> known_tool name = true -> truthy args = true.
Proof.
  unfold resolve.
  destruct (extract it tc) as [[[tn|] raw]|]; try discriminate.
  destruct (nonempty tn); try discriminate.
  unfold apply_defaults, known_tool.
  destruct (truthy (parse_args raw)) eqn:Ht; simpl.
  - intros H; inversion H; subst; auto.
  - destruct (String.eqb tn "search_emails") eqn:E1.
    + intros H; inversion H; reflexivity.
    + destruct (String.eqb tn "get_unread_emails") eqn:E2.
      * intros H; inversion H; reflexivity.
      * destruct (String.eqb tn "get_email_full") eqn:E3; try discriminate.
        intros H; inversion H; subst.
        rewrite E1, E2, E3. discriminate.
Qed.

(** The trace of a run whose first message has a tool call, by the outcome of
    the resolution. *)
Lemma ask_llm_trace (it : interp) (sv : services) (q : string) (tc : pyval) (rest : list pyval) :
  tool_calls (chat_tools sv q) = tc :: rest ->
  ask_llm it sv q =
  match resolve it tc q with
  | Raised => {| trace := [Print (UserLine q); ChatTools q]; raised := true |}
  | NoToolIdentified =>
      returned [Print (UserLine q); ChatTools q; Print NoToolNameLine]
  | MissingRequiredArgument =>
      returned [Print (UserLine q); ChatTools q; Print NeedsMessageIdLine]
  | Resolved name args =>
      match py_str it args with
      | None => {| trace := [Print (UserLine q); ChatTools q]; raised := true |}
      | Some _ =>
          match dispatch sv name args with
          | inr e =>
              returned [Print (UserLine q); ChatTools q; Print (DecidedLine name args);
                        Post (endpoint_of name) (body_of args); Print (ErrorCallingLine e)]
          | inl data =>
              returned [Print (UserLine q); ChatTools q; Print (DecidedLine name args);
                        Post (endpoint_of name) (body_of args); ChatFinal q name data;
                        Print (FinalAnswerLine (chat_final sv q name data))]
          end
      end
  end.
Proof.
  intros Htc. unfold ask_llm. rewrite Htc.
  destruct (resolve it tc q); reflexivity.
Qed.

(** A call of [requests.post] in a run comes from a resolved tool call. *)
Lemma post_in_trace (it : interp) (sv : services) (q endpoint : string) (body : option pyval) :
  In (Post endpoint body) (trace (ask_llm it sv q)) ->
  exists tc rest name args,
    tool_calls (chat_tools sv q) = tc :: rest
    /\ resolve it tc q = Resolved name args
    /\ endpoint = endpoint_of name /\ body = body_of args.
Proof.
  destruct (tool_calls (chat_tools sv q)) as [|tc rest] eqn:Htc.
  - unfold ask_llm. rewrite Htc. simpl.
    intros [H|[H|[H|[]]]]; discriminate.
  - rewrite (ask_llm_trace it sv q tc rest Htc).
    destruct (resolve it tc q) as [name args| | |] eqn:Hres.
    + intros Hin. exists tc, rest, name, args.
      assert (Post endpoint body = Post (endpoint_of name) (body_of args)) as Heq.
      { destruct (py_str it args);
          [|simpl in Hin; destruct Hin as [H|[H|[]]]; discriminate].
        destruct (dispatch sv name args); simpl in Hin;
          repeat (destruct Hin as [Hin|Hin]; try discriminate; auto); contradiction. }
      inversion Heq. auto.
    + simpl. intros [H|[H|[H|[]]]]; discriminate.
    + simpl. intros [H|[H|[H|[]]]]; discriminate.
    + simpl. intros [H|[H|[]]]; discriminate.
Qed.

(** ** C1: what is known of the name and the arguments when the POST is made *)

(** C1, as stated, fails: the POST is made to the endpoint of a name that is
    none of the three tools, with a list as body; and a name that is none of
    the three tools is resolved with [None] as arguments. *)
Lemma C1_counterexample :
  posts (ask_llm no_builtins (stub_services unknown_tool_call ok_response) "tidy my inbox")
  = [Post "http://localhost:8000/tools/archive_all" (Some (PList [PInt 1]))]
  /\ known_tool "archive_all" = false
  /\ is_mapping (PList [PInt 1]) = false
  /\ resolve no_builtins unknown_tool_call_null "tidy my inbox"
     = Resolved "archive_all" PNone.
Proof. vm_compute. repeat split. Qed.

(** C1 (amended): for the tool call that [ask_llm] processes, once it is
    resolved the name is a non-empty string, and the resolved arguments are
    not [None] when the name is one of the three known tools; every POST of
    the run goes to the endpoint of that name with those arguments as body,
    and the POST is made whenever line 214 can print the arguments. *)
Theorem C1_post_name_nonempty_args_not_none
    (it : interp) (sv : services) (q : string) (tc : pyval) (rest : list pyval)
    (name : string) (args : pyval) :
  tool_calls (chat_tools sv q) = tc :: rest ->
  resolve it tc q = Resolved name args ->
  name <> EmptyString
  /\ (known_tool name = true -> args <> PNone)
  /\ (forall endpoint body,
        In (Post endpoint body) (trace (ask_llm it sv q)) ->
        endpoint = endpoint_of name /\ body = body_of args)
  /\ (py_str it args <> None ->
      In (Post (endpoint_of name) (body_of args)) (trace (ask_llm it sv q))).
Proof.
  intros Htc Hres. split.
  { apply nonempty_true. eapply resolve_name_nonempty; eauto. }
  split.
  { intros Hk. apply truthy_not_none. eapply resolve_known_truthy; eauto. }
  split.
  - intros endpoint body Hin.
    destruct (post_in_trace it sv q endpoint body Hin)
      as (tc' & rest' & name' & args' & Htc' & Hres' & He & Hb).
    rewrite Htc in Htc'. inversion Htc'; subst tc' rest'.
    rewrite Hres in Hres'. inversion Hres'; subst name' args'.
    split; assumption.
  - intros Hstr. rewrite (ask_llm_trace it sv q tc rest Htc), Hres.
    destruct (py_str it args); [|congruence].
    destruct (dispatch sv name args); simpl; auto.
Qed.

Lemma C1_post_name_nonempty_args_not_none_witness :
  "get_unread_emails" <> EmptyString
  /\ PDict [("max_results", PInt 5)] <> PNone
  /\ In (Post "http://localhost:8000/tools/get_unread_emails"
              (Some (PDict [("max_results", PInt 5)])))
        (trace (ask_llm no_builtins
                  (stub_services (sdk_tool_call "get_unread_emails" "{}") ok_response)
                  "any unread mail?")).
Proof.
  destruct (C1_post_name_nonempty_args_not_none no_builtins
              (stub_services (sdk_tool_call "get_unread_emails" "{}") ok_response)
              "any unread mail?" (sdk_tool_call "get_unread_emails" "{}") []
              "get_unread_emails" (PDict [("max_results", PInt 5)]) eq_refl eq_refl)
    as (Hn & Ha & _ & Hp).
  split; [exact Hn|]. split; [exact (Ha eq_refl)|].
  apply Hp. discriminate.
Defined.

(** ** C2: an exception that leaves the resolution *)

(** C2 (the code at the failing input): the [get] of line 142 is applied to
    the list and raises outside any [try]; the exception leaves [ask_llm]
    before anything is posted. *)
Theorem C2_resolution_raises (it : interp) (q : string) (resp : option response) :
  resolve it dump_not_a_dict q = Raised
  /\ raised (ask_llm it (stub_services dump_not_a_dict resp) q) = true
  /\ posts (ask_llm it (stub_services dump_not_a_dict resp) q) = [].
Proof. repeat split. Qed.

(** The exceptions that leave the resolution come from the three places
    outside a [try]: the [get] of line 142 on a [tc_dict] that is not a dict,
    and the [str()] of lines 138 and 152. *)
Lemma resolve_raised_inv (it : interp) (tc : pyval) (q : string) :
  resolve it tc q = Raised ->
  is_mapping (tc_dict_of it tc) = false
  \/ exists v, is_str v = false /\ py_str it v = None.
Proof.
  unfold resolve, extract.
  destruct (prefer_dict (tc_dict_of it tc) (attr_name tc) (attr_args tc)) as [tn ra].
  destruct (unnest_name it tn) as [tn'|] eqn:Hun.
  - destruct (normalize_raw_args it (tc_dict_of it tc) ra) as [ra'|] eqn:Hn.
    + destruct (sanitize_name it tn') as [s|]; [|discriminate].
      destruct (nonempty s); [|discriminate].
      unfold apply_defaults.
      repeat match goal with
             | |- context [if ?b then _ else _] => destruct b
             end; discriminate.
    + intros _. unfold normalize_raw_args in Hn.
      destruct ra; try discriminate;
        try (right;
             match type of Hn with
             | context [py_str it ?v] => exists v
             end;
             destruct (dump_of it _); [discriminate|];
             split; [reflexivity|];
             destruct (py_str it _); [discriminate|reflexivity]).
      left. destruct (tc_dict_of it tc); try reflexivity. discriminate.
  - intros _. right. unfold unnest_name in Hun.
    destruct tn; try discriminate;
      match type of Hun with
      | context [py_str it ?v] => exists v
      end;
      (split; [reflexivity|]);
      destruct (truthy (py_getattr _ "name")); try discriminate;
      destruct (py_str it _); try reflexivity;
      destruct (dump_of it _) as [[]|]; try discriminate;
      destruct (truthy _); discriminate.
Qed.

(** ** C5: [get_email_full] without arguments *)

Lemma posts_returned (evs : list event) : posts (returned evs) = filter is_post evs.
Proof. reflexivity. Qed.

(** C5: when the extracted name is [get_email_full] and the extracted
    arguments are empty, the resolution ends on the missing [message_id]: the
    line asking for it is printed, [requests.post] is never called and
    [ask_llm] returns. *)
Theorem C5_get_email_full_requires_message_id
    (it : interp) (sv : services) (q : string) (tc : pyval) (rest : list pyval)
    (raw_args : pyval) :
  tool_calls (chat_tools sv q) = tc :: rest ->
  extract it tc = Some (Some "get_email_full", raw_args) ->
  truthy (parse_args raw_args) = false ->
  resolve it tc q = MissingRequiredArgument
  /\ posts (ask_llm it sv q) = []
  /\ ask_llm it sv q
     = returned [Print (UserLine q); ChatTools q; Print NeedsMessageIdLine].
Proof.
  intros Htc Hex Hempty.
  assert (resolve it tc q = MissingRequiredArgument) as Hres.
  { unfold resolve. rewrite Hex. simpl. unfold apply_defaults. rewrite Hempty. reflexivity. }
  rewrite (ask_llm_trace it sv q tc rest Htc), Hres.
  repeat split.
Qed.

Lemma C5_get_email_full_requires_message_id_witness :
  resolve no_builtins (sdk_tool_call "get_email_full" "{}") "open the last email"
  = MissingRequiredArgument
  /\ posts (ask_llm no_builtins
              (stub_services (sdk_tool_call "get_email_full" "{}") ok_response)
              "open the last email") = []
  /\ ask_llm no_builtins
       (stub_services (sdk_tool_call "get_email_full" "{}") ok_response)
       "open the last email"
     = returned [Print (UserLine "open the last email");
                 ChatTools "open the last email"; Print NeedsMessageIdLine].
Proof.
  apply (C5_get_email_full_requires_message_id no_builtins
           (stub_services (sdk_tool_call "get_email_full" "{}") ok_response)
           "open the last email" (sdk_tool_call "get_email_full" "{}") [] PNone);
    reflexivity.
Defined.

(** ** C6: an error status from the endpoint *)




(** ** C10: the body of the POST for a known tool *)

(** C10: when the extracted name is one of the three known tools (and line
    214 can print the extracted arguments), either the
    extracted arguments are not empty and the single POST carries them as
    they are, or they are empty and the name is [get_email_full], for which
    no POST is made, or they are empty and the single POST carries defaults
    that contain [max_results = 5].  In no case is the POST without a body. *)
Theorem C10_known_tool_post_has_body
    (it : interp) (sv : services) (q : string) (tc : pyval) (rest : list pyval)
    (name : string) (raw_args : pyval) :
  tool_calls (chat_tools sv q) = tc :: rest ->
  extract it tc = Some (Some name, raw_args) ->
  known_tool name = true ->
  py_str it (parse_args raw_args) <> None ->
  (truthy (parse_args raw_args) = true
   /\ posts (ask_llm it sv q) = [Post (endpoint_of name) (Some (parse_args raw_args))])
  \/ (truthy (parse_args raw_args) = false
      /\ name = "get_email_full"
      /\ posts (ask_llm it sv q) = [])
  \/ (truthy (parse_args raw_args) = false
      /\ exists d, d <> [] /\ dict_get d "max_results" = PInt 5
                   /\ posts (ask_llm it sv q) = [Post (endpoint_of name) (Some (PDict d))]).
Proof.
  intros Htc Hex Hk Hstr.
  rewrite (ask_llm_trace it sv q tc rest Htc).
  unfold resolve. rewrite Hex.
  assert (nonempty name = true) as Hne.
  { destruct name; [discriminate Hk | reflexivity]. }
  rewrite Hne. unfold apply_defaults.
  destruct (truthy (parse_args raw_args)) eqn:Ht; simpl.
  - left. split; [reflexivity|].
    destruct (py_str it (parse_args raw_args)); [|congruence].
    destruct (dispatch sv name (parse_args raw_args));
      rewrite posts_returned; simpl; unfold body_of; rewrite Ht; reflexivity.
  - right. unfold known_tool in Hk.
    destruct (String.eqb name "search_emails") eqn:E1.
    + right. split; [reflexivity|].
      exists [("query", PStr (default_query q)); ("max_results", PInt 5)].
      split; [discriminate|]. split; [reflexivity|].
      match goal with
      | |- context [dispatch ?a ?b ?c] => destruct (dispatch a b c)
      end; reflexivity.
    + destruct (String.eqb name "get_unread_emails") eqn:E2.
      * right. split; [reflexivity|].
        exists [("max_results", PInt 5)].
        split; [discriminate|]. split; [reflexivity|].
        match goal with
        | |- context [dispatch ?a ?b ?c] => destruct (dispatch a b c)
        end; reflexivity.
      * destruct (String.eqb name "get_email_full") eqn:E3; [|discriminate Hk].
        left. split; [reflexivity|]. split; [|reflexivity].
        apply String.eqb_eq; exact E3.
Qed.

Lemma C10_known_tool_post_has_body_witness :
  (truthy (parse_args PNone) = true
   /\ posts (ask_llm no_builtins
               (stub_services (sdk_tool_call "search_emails" "{}") ok_response)
               "emails from Alice")
      = [Post (endpoint_of "search_emails") (Some (parse_args PNone))])
  \/ (truthy (parse_args PNone) = false
      /\ "search_emails" = "get_email_full"
      /\ posts (ask_llm no_builtins
                  (stub_services (sdk_tool_call "search_emails" "{}") ok_response)
                  "emails from Alice") = [])
  \/ (truthy (parse_args PNone) = false
      /\ exists d, d <> [] /\ dict_get d "max_results" = PInt 5
                   /\ posts (ask_llm no_builtins
                               (stub_services (sdk_tool_call "search_emails" "{}") ok_response)
                               "emails from Alice")
                      = [Post (endpoint_of "search_emails") (Some (PDict d))]).
Proof.
  apply (C10_known_tool_post_has_body no_builtins
           (stub_services (sdk_tool_call "search_emails" "{}") ok_response)
           "emails from Alice" (sdk_tool_call "search_emails" "{}") []
           "search_emails" PNone); try reflexivity.
  discriminate.
Defined.

(** The POST without a body is made for a name that is none of the three
    tools and arguments that are empty. *)
Lemma bodiless_post_reachable :
  posts (ask_llm no_builtins
           (stub_services (plain_object [("name", PStr "archive_all")] "ToolCall")
                          ok_response) "tidy my inbox")
  = [Post "http://localhost:8000/tools/archive_all" None].
Proof. reflexivity. Qed.

(** ** C8: the decoding of the raw arguments *)

(** C8, as stated, fails: a string that is the JSON text of an array is
    decoded to a list, which is not a mapping, and the list is what is
    resolved and posted. *)
Lemma C8_counterexample :
  parse_args (PStr "[1]") = PList [PInt 1]
  /\ is_mapping (parse_args (PStr "[1]")) = false
  /\ resolve no_builtins
       (plain_object [("name", PStr "search_emails"); ("arguments", PStr "[1]")] "ToolCall")
       "emails from Alice"
     = Resolved "search_emails" (PList [PInt 1]).
Proof. vm_compute. repeat split. Qed.

(** C8 (amended): a mapping is kept as it is; missing raw arguments give the
    empty mapping; a string is decoded as JSON and the decoded value is used
    whatever its type, so that the text of a JSON object gives that mapping
    (the text of [max_results] set to 3 gives exactly that mapping); a string
    that is not JSON gives the empty mapping. *)
Theorem C8_parse_args (s : string) (d : pydict) :
  parse_args (PDict d) = PDict d
  /\ parse_args PNone = PDict []
  /\ (forall v, json_loads s = Some v -> parse_args (PStr s) = v)
  /\ (json_loads s = None -> parse_args (PStr s) = PDict [])
  /\ parse_args (PStr (dq "{`max_results`: 3}")) = PDict [("max_results", PInt 3)]
  /\ parse_args (PStr "not json") = PDict []
  /\ resolve no_builtins
       (plain_object [("name", PStr "get_unread_emails");
                      ("arguments", PStr (dq "{`max_results`: 3}"))] "ToolCall")
       "any unread mail?"
     = Resolved "get_unread_emails" (PDict [("max_results", PInt 3)]).
Proof.
  repeat split.
  - destruct d; reflexivity.
  - intros v Hv. simpl. rewrite Hv. reflexivity.
  - intros Hs. simpl. rewrite Hs. reflexivity.
Qed.

Lemma C8_parse_args_witness :
  json_loads (dq "{`query`: `x`, `max_results`: 2}")
  = Some (PDict [("query", PStr "x"); ("max_results", PInt 2)])
  /\ parse_args (PStr (dq "{`query`: `x`, `max_results`: 2}"))
     = PDict [("query", PStr "x"); ("max_results", PInt 2)].
Proof.
  split; [reflexivity|].
  apply (proj1 (proj2 (proj2 (C8_parse_args (dq "{`query`: `x`, `max_results`: 2}") [])))).
  reflexivity.
Defined.

(** ** Places where a tool call can carry the name *)

Lemma mem_cons (x y : string) (l : list string) :
  mem x (y :: l) = true -> x = y \/ mem x l = true.
Proof.
  unfold mem. simpl. intros H. apply orb_true_iff in H.
  destruct H as [H|H]; [left; apply String.eqb_eq; exact H | right; exact H].
Qed.

Ltac mem_cases H :=
  repeat match type of H with
         | mem _ (_ :: _) = true =>
             apply mem_cons in H; destruct H as [H|H]; [subst|]
         | mem _ [] = true => discriminate H
         end.

(** ** Names that the normalisation leaves alone *)

Lemma strip_prefix_all (p : ascii -> bool) (lit s r : string) :
  strip_prefix Ascii.eqb lit s = Some r ->
  all_chars p s = true -> all_chars p lit = true.
Proof.
  revert s. induction lit as [|a lit IH]; intros s; simpl; [reflexivity|].
  destruct s as [|c s]; [discriminate|].
  destruct (Ascii.eqb a c) eqn:E; [|discriminate].
  apply Ascii.eqb_eq in E. subst c. simpl.
  intros Hs Hall. apply andb_true_iff in Hall. destruct Hall as [Hc Hr].
  rewrite Hc. simpl. eapply IH; eauto.
Qed.

Lemma span_all (p : ascii -> bool) (s : string) :
  all_chars p s = true -> span p s = (s, EmptyString).
Proof.
  induction s as [|c s IH]; simpl; [reflexivity|].
  intros H. apply andb_true_iff in H. destruct H as [Hc Hs].
  rewrite Hc, (IH Hs). reflexivity.
Qed.

Lemma search_name_ident (s : string) (prev : option ascii) :
  all_chars is_ident s = true -> search_from pat_name prev s = None.
Proof.
  revert prev. induction s as [|c s IH]; intros prev Hall.
  - reflexivity.
  - simpl search_from.
    assert (pat_name prev (String c s) = None) as Hp.
    { unfold pat_name, name_eq.
      destruct (strip_prefix Ascii.eqb "name=" (String c s)) as [r|] eqn:E; [|reflexivity].
      apply (strip_prefix_all is_ident) in E; [discriminate E | exact Hall]. }
    rewrite Hp. apply IH.
    simpl in Hall. apply andb_true_iff in Hall. tauto.
Qed.

Lemma search_last_ident_ident (s : string) (prev : option ascii) :
  all_chars is_ident s = true -> search_from pat_last_ident prev s = None.
Proof.
  revert prev. induction s as [|c s IH]; intros prev Hall.
  - reflexivity.
  - simpl search_from.
    assert (pat_last_ident prev (String c s) = None) as Hp.
    { unfold pat_last_ident. rewrite (span_all _ _ Hall). reflexivity. }
    rewrite Hp. apply IH.
    simpl in Hall. apply andb_true_iff in Hall. tauto.
Qed.

(** A name made of letters, digits, underscores and hyphens is left as it
    is. *)
Lemma sanitize_ident (it : interp) (s : string) :
  all_chars is_ident s = true -> sanitize_name it (PStr s) = Some s.
Proof.
  intros Hall. unfold sanitize_name, re_search.
  destruct (search_from pat_repr None s); [|reflexivity].
  rewrite (search_name_ident s None Hall), (search_last_ident_ident s None Hall).
  reflexivity.
Qed.

(** The attributes are probed in the order [name], [tool], [function],
    [tool_name]. *)
Lemma attr_name_first_truthy (tc : pyval) :
  attr_name tc
  = first_truthy [py_getattr tc "name"; py_getattr tc "tool";
                  py_getattr tc "function"; py_getattr tc "tool_name"].
Proof.
  unfold attr_name, name_attrs, first_truthy. simpl.
  destruct (truthy (py_getattr tc "name")); [reflexivity|].
  destruct (truthy (py_getattr tc "tool")); [reflexivity|].
  destruct (truthy (py_getattr tc "function")); [reflexivity|].
  destruct (truthy (py_getattr tc "tool_name")); reflexivity.
Qed.

(** The value lines 101 to 118 leave in [tool_name] is the first true value
    among the places, the entries of the dict view before the attributes. *)
Lemma prefer_dict_first_truthy (it : interp) (tc raw : pyval) :
  fst (prefer_dict (tc_dict_of it tc) (attr_name tc) raw)
  = first_truthy (read_places it tc).
Proof.
  unfold read_places. rewrite attr_name_first_truthy.
  generalize [py_getattr tc "name"; py_getattr tc "tool";
              py_getattr tc "function"; py_getattr tc "tool_name"].
  intros l.
  destruct (tc_dict_of it tc) as [| | | | |l'|d|]; try reflexivity.
  unfold prefer_dict, dict_places, first_truthy, py_or. cbn [fst app find].
  generalize (dict_get d "name") (dict_get d "tool")
             (if is_str (dict_get d "function") then dict_get d "function" else PNone).
  intros a b c.
  destruct (truthy a) eqn:H1; cbv iota; rewrite ?H1; cbv iota; [reflexivity|].
  destruct (truthy b) eqn:H2; cbv iota; rewrite ?H2; cbv iota; [reflexivity|].
  destruct (truthy c) eqn:H3; cbv iota; rewrite ?H3; cbv iota; reflexivity.
Qed.

Lemma prefer_dict_snd (td tn tn' raw : pyval) :
  snd (prefer_dict td tn raw) = snd (prefer_dict td tn' raw).
Proof. destruct td; reflexivity. Qed.

(** A value that holds a name is unnested to that name. *)
Lemma unnest_carried (it : interp) (v : pyval) (n : string) :
  carried_name v = Some n -> unnest_name it v = Some (PStr n).
Proof.
  destruct v as [| | | |s|l|d|attrs c m t b]; simpl; try discriminate.
  - intros H; inversion H; reflexivity.
  - destruct (py_or (dict_get d "name") (dict_get d "tool")); try discriminate.
    intros H; inversion H; reflexivity.
  - destruct (dict_get attrs "name") as [| | | |s| | |]; try discriminate.
    destruct (nonempty s) eqn:Hne; [|discriminate].
    intros H; inversion H; subst.
    destruct n; [discriminate Hne | reflexivity].
Qed.

(** Every mark of line 159 has an opening parenthesis or a capital C. *)
Lemma plain_no_mark (s : string) (prev : option ascii) :
  all_chars is_plain s = true -> search_from pat_repr prev s = None.
Proof.
  revert prev. induction s as [|c s IH]; intros prev Hall.
  - simpl. unfold pat_repr. rewrite andb_comm. reflexivity.
  - simpl search_from.
    assert (pat_repr prev (String c s) = None) as Hp.
    { unfold pat_repr.
      assert (starts_with "Function(" (String c s) = false) as H1.
      { unfold starts_with.
        destruct (strip_prefix Ascii.eqb "Function(" (String c s)) eqn:E; [|reflexivity].
        apply (strip_prefix_all is_plain) in E; [discriminate E | exact Hall]. }
      assert (starts_with "function(" (String c s) = false) as H2.
      { unfold starts_with.
        destruct (strip_prefix Ascii.eqb "function(" (String c s)) eqn:E; [|reflexivity].
        apply (strip_prefix_all is_plain) in E; [discriminate E | exact Hall]. }
      assert (starts_with "ToolCall(" (String c s) = false) as H3.
      { unfold starts_with.
        destruct (strip_prefix Ascii.eqb "ToolCall(" (String c s)) eqn:E; [|reflexivity].
        apply (strip_prefix_all is_plain) in E; [discriminate E | exact Hall]. }
      assert (starts_with "ChatCompletion" (String c s) = false) as H4.
      { unfold starts_with.
        destruct (strip_prefix Ascii.eqb "ChatCompletion" (String c s)) eqn:E; [|reflexivity].
        apply (strip_prefix_all is_plain) in E; [discriminate E | exact Hall]. }
      rewrite H1, H2, H3, H4. rewrite andb_comm. reflexivity. }
    rewrite Hp. apply IH.
    simpl in Hall. apply andb_true_iff in Hall. tauto.
Qed.

(** ** C3: the name is read the same way from every supported place *)

(** C3, as stated, fails: the key [tool_name] of a dict is among the places
    the claim lists, and the name under it is not read, although the same
    name under the attribute [tool_name] is; the text of [None] becomes the
    name.  The same holds for a dict under the key [function]. *)
Lemma C3_counterexample :
  extract no_builtins (expose (Attr "tool_name") "search_emails")
  = Some (Some "search_emails", PNone)
  /\ extract no_builtins (expose (Key "tool_name") "search_emails")
     = Some (Some "None", PNone)
  /\ extract no_builtins (expose (KeyDict "function" "name") "search_emails")
     = Some (Some "None", PNone).
Proof. vm_compute. repeat split. Qed.

(** C3 (amended): the places the code reads are, in this order, the entries
    [name], [tool] and [function] (only when a string) of the dict view of
    the tool call (the tool call itself when it is a dict, or what its
    [model_dump()] or [dict()] returns), then its attributes [name], [tool],
    [function] and [tool_name]; a dict entry [tool_name] and a dict under
    the entry [function] are not read.  The first true value among these
    places is taken.  When it holds the name [n] (it is [n], a dict with [n]
    under [name] or [tool], or an object with [n] under its attribute
    [name]), the extracted name depends on [n] alone, not on the place: two
    such tool calls give the same name; the name is [n] itself when [n] has
    no opening parenthesis and no capital C, and for an ASCII [n] it is the
    normalisation of [n]; the extraction raises only where reading the
    arguments does.  In particular a tool call that carries [n] at one of
    these places and nothing else gives [n] for every place. *)
Theorem C3_same_name_from_every_supported_place (it : interp) (n : string) :
  (forall tc tc' name raw name' raw',
     carried_name (first_truthy (read_places it tc)) = Some n ->
     carried_name (first_truthy (read_places it tc')) = Some n ->
     extract it tc = Some (name, raw) -> extract it tc' = Some (name', raw') ->
     name = name')
  /\ (forall tc,
        carried_name (first_truthy (read_places it tc)) = Some n ->
        all_chars is_plain n = true ->
        extract it tc = option_map (fun raw => (Some n, raw)) (raw_args_of it tc))
  /\ (forall tc,
        carried_name (first_truthy (read_places it tc)) = Some n ->
        all_chars is_ascii n = true ->
        extract it tc
        = option_map (fun raw => (sanitize_name it (PStr n), raw)) (raw_args_of it tc))
  /\ (forall loc,
        supported loc = true -> nonempty n = true -> all_chars is_plain n = true ->
        extract it (expose loc n) = Some (Some n, PNone)).
Proof.
  assert (forall tc,
            carried_name (first_truthy (read_places it tc)) = Some n ->
            extract it tc
            = option_map (fun raw => (sanitize_name it (PStr n), raw)) (raw_args_of it tc))
    as Hany.
  { intros tc Hc. unfold extract, raw_args_of.
    pose proof (prefer_dict_first_truthy it tc (attr_args tc)) as Hfst.
    destruct (prefer_dict (tc_dict_of it tc) (attr_name tc) (attr_args tc)) as [tn ra].
    simpl in Hfst. subst tn. simpl snd.
    rewrite (unnest_carried it _ n Hc).
    destruct (normalize_raw_args it (tc_dict_of it tc) ra); reflexivity. }
  assert (all_chars is_plain n = true -> sanitize_name it (PStr n) = Some n) as Hplain.
  { intros Hp. unfold sanitize_name, re_search.
    rewrite (plain_no_mark n None Hp). reflexivity. }
  split.
  { intros tc tc' name raw name' raw' Hc Hc' He He'.
    rewrite (Hany tc Hc) in He. rewrite (Hany tc' Hc') in He'.
    destruct (raw_args_of it tc); [|discriminate He].
    destruct (raw_args_of it tc'); [|discriminate He'].
    simpl in He, He'. congruence. }
  split.
  { intros tc Hc Hp. rewrite (Hany tc Hc), (Hplain Hp). reflexivity. }
  split.
  { intros tc Hc _. exact (Hany tc Hc). }
  intros loc Hsup Hne Hp. rewrite <- (Hplain Hp).
  destruct n as [|c n]; [discriminate Hne|].
  destruct loc as [a|a|a k|k|k k'|m k|m k k']; unfold supported in Hsup;
    try (apply andb_true_iff in Hsup; destruct Hsup as [Hsup Hsup']);
    try (apply andb_true_iff in Hsup'; destruct Hsup' as [Hsup' Hsup'']);
    unfold name_attrs in *;
    mem_cases Hsup; try mem_cases Hsup'; try mem_cases Hsup'';
    unfold extract; cbn -[sanitize_name]; reflexivity.
Qed.

Lemma C3_same_name_from_every_supported_place_witness :
  extract no_builtins (sdk_tool_call "get_unread_emails" "{}")
  = Some (Some "get_unread_emails", PNone)
  /\ extract no_builtins (expose (KeyDict "tool" "name") "get_unread_emails")
     = Some (Some "get_unread_emails", PNone).
Proof.
  destruct (C3_same_name_from_every_supported_place no_builtins "get_unread_emails")
    as (_ & Hplain & _ & Hloc).
  split; [exact (Hplain (sdk_tool_call "get_unread_emails" "{}") eq_refl eq_refl)|].
  exact (Hloc (KeyDict "tool" "name") eq_refl eq_refl eq_refl).
Defined.

(** The attributes are probed in the order of the list and the first true
    value is taken: a later attribute is read only when the earlier ones are
    false. *)
Lemma first_truthy_attr_spec (tc : pyval) (attrs : list string) (v : pyval) :
  first_truthy_attr tc attrs = v ->
  (v = PNone /\ forall a, In a attrs -> truthy (py_getattr tc a) = false)
  \/ exists before a after,
       attrs = (before ++ a :: after)%list
       /\ v = py_getattr tc a /\ truthy v = true
       /\ forall b, In b before -> truthy (py_getattr tc b) = false.
Proof.
  revert v. induction attrs as [|a attrs IH]; intros v; simpl.
  - intros <-. left. split; [reflexivity | intros a []].
  - destruct (truthy (py_getattr tc a)) eqn:Ht.
    + intros <-. right. exists [], a, attrs. repeat split; auto.
      intros b [].
    + intros Hv. destruct (IH v Hv) as [[Hn Hall]|(before & a' & after & He & Hva & Htv & Hb)].
      * left. split; [exact Hn|]. intros b [<-|Hin]; auto.
      * right. exists (a :: before), a', after. subst attrs. repeat split; auto.
        intros b [<-|Hin]; auto.
Qed.

(** ** C7: a name that is the printed form of a function object *)

(** C7: the normalisation turns the text
    [Function(name='search_emails', arguments={})] into [search_emails], and
    so the name extracted from a tool call that carries this text at any of
    the places the code reads, or whose [function] attribute is an object
    printed as this text, is [search_emails]. *)
Theorem C7_name_from_printed_function (it : interp) (loc : location) :
  supported loc = true ->
  sanitize_name it (PStr printed_function) = Some "search_emails"
  /\ extract it (expose loc printed_function) = Some (Some "search_emails", PNone)
  /\ extract it (plain_object [("function", plain_object [] printed_function)] "ToolCall")
     = Some (Some "search_emails", PNone).
Proof.
  intros Hsup.
  split; [reflexivity|]. split; [|reflexivity].
  destruct loc as [a|a|a k|k|k k'|m k|m k k']; unfold supported in Hsup;
    try (apply andb_true_iff in Hsup; destruct Hsup as [Hsup Hsup']);
    try (apply andb_true_iff in Hsup'; destruct Hsup' as [Hsup' Hsup'']);
    unfold name_attrs in *;
    mem_cases Hsup; try mem_cases Hsup'; try mem_cases Hsup''; reflexivity.
Qed.

Lemma C7_name_from_printed_function_witness :
  sanitize_name no_builtins (PStr printed_function) = Some "search_emails"
  /\ extract no_builtins (expose (Attr "name") printed_function)
     = Some (Some "search_emails", PNone)
  /\ extract no_builtins
       (plain_object [("function", plain_object [] printed_function)] "ToolCall")
     = Some (Some "search_emails", PNone).
Proof.
  apply (C7_name_from_printed_function no_builtins (Attr "name")). reflexivity.
Defined.

(** ** The sender pattern *)

Lemma search_from_skip {A : Type} (pat : option ascii -> string -> option A)
    (pre tail : string) (m : A) :
  (forall prev, pat prev tail = Some m) ->
  forall prev, no_match_in pat prev pre tail = true ->
  search_from pat prev (pre ++ tail) = Some m.
Proof.
  intros Htail. induction pre as [|c pre IH]; intros prev Hno.
  - simpl. destruct tail; simpl; rewrite Htail; reflexivity.
  - simpl in Hno. simpl append. simpl search_from.
    destruct (pat prev (String c (pre ++ tail))); [discriminate|].
    apply IH. exact Hno.
Qed.

Lemma strip_prefix_app (eq : ascii -> ascii -> bool) (lit kw t : string) :
  strip_prefix eq lit kw = Some EmptyString ->
  strip_prefix eq lit (kw ++ t) = Some t.
Proof.
  revert kw. induction lit as [|a lit IH]; intros kw; simpl.
  - intros H. inversion H. reflexivity.
  - destruct kw as [|c kw]; [discriminate|]. simpl.
    destruct (eq a c); [apply IH | discriminate].
Qed.

Lemma span_app (p : ascii -> bool) (a b : string) :
  all_chars p a = true -> starts_in p b = false -> span p (a ++ b) = (a, b).
Proof.
  intros Ha Hb. induction a as [|c a IH]; simpl.
  - destruct b as [|c b]; [reflexivity|]. simpl in Hb. simpl. rewrite Hb. reflexivity.
  - simpl in Ha. apply andb_true_iff in Ha. destruct Ha as [Hc Ha].
    rewrite Hc, (IH Ha). reflexivity.
Qed.

Lemma starts_in_app (p : ascii -> bool) (a b : string) :
  nonempty a = true -> starts_in p (a ++ b) = starts_in p a.
Proof. destruct a; [discriminate | reflexivity]. Qed.

(** The match of the sender pattern at the word [from]: the white space,
    then the whole run of the class. *)
Lemma pat_sender_at (prev : option ascii) (kw ws body rest : string) :
  spells_from kw = true ->
  nonempty ws = true -> all_chars is_space ws = true ->
  nonempty body = true -> all_chars is_sender body = true ->
  starts_in is_space body = false ->
  starts_in is_sender rest = false ->
  pat_sender prev (kw ++ ws ++ body ++ rest) = Some body.
Proof.
  intros Hkw Hws1 Hws2 Hb1 Hb2 Hb3 Hrest.
  unfold pat_sender, spells_from in *.
  destruct (strip_prefix eqb_ci "from" kw) as [[|]|] eqn:E; try discriminate.
  rewrite (strip_prefix_app _ _ _ _ E).
  rewrite (span_app is_space ws (body ++ rest) Hws2)
    by (rewrite starts_in_app; assumption).
  rewrite (span_app is_sender body rest Hb2 Hrest).
  rewrite Hws1, Hb1. reflexivity.
Qed.

Lemma sender_search (pre kw ws body rest : string) :
  no_match_in pat_sender None pre (kw ++ ws ++ body ++ rest) = true ->
  spells_from kw = true ->
  nonempty ws = true -> all_chars is_space ws = true ->
  nonempty body = true -> all_chars is_sender body = true ->
  starts_in is_space body = false ->
  starts_in is_sender rest = false ->
  re_search pat_sender (pre ++ kw ++ ws ++ body ++ rest) = Some body.
Proof.
  intros Hno Hkw Hws1 Hws2 Hb1 Hb2 Hb3 Hrest.
  unfold re_search. apply search_from_skip; [|exact Hno].
  intros prev. apply pat_sender_at; assumption.
Qed.

(** A text without [f] and [F] has no sender. *)
Lemma sender_search_no_f (s : string) (prev : option ascii) :
  all_chars not_f s = true -> search_from pat_sender prev s = None.
Proof.
  revert prev. induction s as [|c s IH]; intros prev Hall.
  - reflexivity.
  - simpl in Hall. apply andb_true_iff in Hall. destruct Hall as [Hc Hs].
    simpl search_from.
    assert (pat_sender prev (String c s) = None) as Hp.
    { unfold pat_sender. simpl strip_prefix. unfold not_f in Hc.
      apply negb_true_iff in Hc. rewrite Hc. reflexivity. }
    rewrite Hp. apply IH. exact Hs.
Qed.

Lemma lstrip_clean (p : ascii -> bool) (s : string) :
  starts_in p s = false -> lstrip p s = s.
Proof. destruct s; simpl; [reflexivity|]. intros ->. reflexivity. Qed.

Lemma rstrip_clean (p : ascii -> bool) (s : string) :
  ends_in p s = false -> rstrip p s = s.
Proof.
  unfold ends_in. induction s as [|c s IH]; [reflexivity|].
  destruct s as [|c' s].
  - simpl. intros ->. reflexivity.
  - intros H. change (last_char (String c (String c' s))) with (last_char (String c' s)) in H.
    specialize (IH H). change (rstrip p (String c (String c' s)))
      with (match rstrip p (String c' s) with
            | EmptyString => if p c then EmptyString else String c EmptyString
            | r' => String c r'
            end).
    rewrite IH. reflexivity.
Qed.



Lemma all_chars_ends (p q : ascii -> bool) (s : string) :
  (forall c, p c = true -> q c = false) ->
  all_chars p s = true -> ends_in q s = false.
Proof.
  intros Hpq. unfold ends_in. induction s as [|c s IH]; [reflexivity|].
  intros H. simpl in H. apply andb_true_iff in H. destruct H as [Hc Hs].
  destruct s as [|c' s].
  - simpl. apply Hpq. exact Hc.
  - change (last_char (String c (String c' s))) with (last_char (String c' s)).
    apply IH. exact Hs.
Qed.

Lemma all_chars_impl (p q : ascii -> bool) (s : string) :
  (forall c, p c = true -> q c = true) ->
  all_chars p s = true -> all_chars q s = true.
Proof.
  intros Hpq. induction s as [|c s IH]; simpl; [reflexivity|].
  intros H. apply andb_true_iff in H. destruct H as [Hc Hs].
  rewrite (Hpq c Hc), (IH Hs). reflexivity.
Qed.




(** ** Texts put together *)

Lemma append_assoc (a b c : string) : (a ++ b) ++ c = a ++ b ++ c.
Proof. induction a as [|x a IH]; simpl; [reflexivity | rewrite IH; reflexivity]. Qed.

Lemma last_char_in (p : ascii -> bool) (s : string) (c : ascii) :
  all_chars p s = true -> last_char s = Some c -> p c = true.
Proof.
  induction s as [|a s IH]; [discriminate|].
  intros H. simpl in H. apply andb_true_iff in H. destruct H as [Ha Hs].
  destruct s as [|b s].
  - simpl. intros Hc; inversion Hc; subst; exact Ha.
  - change (last_char (String a (String b s))) with (last_char (String b s)).
    apply IH. exact Hs.
Qed.

(** ** The word [from] and the stripped characters, written out *)

Lemma ci_f (c : ascii) : eqb_ci "f" c = either "f" "F" c.
Proof. destruct c as [[] [] [] [] [] [] [] []]; reflexivity. Qed.

Lemma ci_r (c : ascii) : eqb_ci "r" c = either "r" "R" c.
Proof. destruct c as [[] [] [] [] [] [] [] []]; reflexivity. Qed.

Lemma ci_o (c : ascii) : eqb_ci "o" c = either "o" "O" c.
Proof. destruct c as [[] [] [] [] [] [] [] []]; reflexivity. Qed.

Lemma ci_m (c : ascii) : eqb_ci "m" c = either "m" "M" c.
Proof. destruct c as [[] [] [] [] [] [] [] []]; reflexivity. Qed.

Lemma from_word_spells (kw : string) : is_from_word kw = true -> spells_from kw = true.
Proof.
  destruct kw as [|a [|b [|c [|d [|e kw]]]]]; try discriminate.
  unfold is_from_word, spells_from. cbn [strip_prefix].
  rewrite ci_f, ci_r, ci_o, ci_m.
  intros H.
  apply andb_true_iff in H. destruct H as [H Hd].
  apply andb_true_iff in H. destruct H as [H Hc].
  apply andb_true_iff in H. destruct H as [Ha Hb].
  rewrite Ha, Hb, Hc, Hd. reflexivity.
Qed.




Lemma one_of_trim (c : ascii) : one_of trim_chars c = is_sender_trim c.
Proof.
  unfold one_of, trim_chars, is_sender_trim. cbn [existsb].
  rewrite orb_false_r, !orb_assoc. reflexivity.
Qed.

Lemma sender_trim_is_dot (c : ascii) :
  is_sender c = true -> is_sender_trim c = is_dot c.
Proof. destruct c as [[] [] [] [] [] [] [] []]; vm_compute; congruence. Qed.

Lemma dot_not_space (c : ascii) : is_dot c = true -> is_space c = false.
Proof. destruct c as [[] [] [] [] [] [] [] []]; vm_compute; congruence. Qed.

Lemma all_chars_app (p : ascii -> bool) (a b : string) :
  all_chars p (a ++ b) = all_chars p a && all_chars p b.
Proof.
  induction a as [|c a IH]; simpl; [reflexivity|].
  rewrite IH, andb_assoc. reflexivity.
Qed.

Lemma all_chars_ext (p q : ascii -> bool) (s : string) :
  (forall c, p c = q c) -> all_chars p s = all_chars q s.
Proof.
  intros H. induction s as [|c s IH]; simpl; [reflexivity|].
  rewrite H, IH. reflexivity.
Qed.

Lemma last_char_app (a b : string) :
  nonempty b = true -> last_char (a ++ b) = last_char b.
Proof.
  intros Hb. induction a as [|c a IH]; [reflexivity|].
  cbn [append]. destruct (a ++ b) as [|c' r] eqn:E.
  - destruct a; [simpl in E; subst b; discriminate Hb | discriminate E].
  - change (last_char (String c (String c' r))) with (last_char (String c' r)).
    exact IH.
Qed.

Lemma ends_in_app (p : ascii -> bool) (a b : string) :
  nonempty b = true -> ends_in p (a ++ b) = ends_in p b.
Proof. intros Hb. unfold ends_in. rewrite (last_char_app a b Hb). reflexivity. Qed.

Lemma app_nil_r_str (s : string) : s ++ EmptyString = s.
Proof. induction s as [|c s IH]; simpl; [reflexivity | rewrite IH; reflexivity]. Qed.

Lemma nonempty_app (a b : string) : nonempty a = true -> nonempty (a ++ b) = true.
Proof. destruct a; [discriminate | reflexivity]. Qed.

Lemma lstrip_app_all (p : ascii -> bool) (t s : string) :
  all_chars p t = true -> lstrip p (t ++ s) = lstrip p s.
Proof.
  induction t as [|c t IH]; intros H; [reflexivity|].
  simpl in H. apply andb_true_iff in H. destruct H as [Hc Ht].
  cbn [append lstrip]. rewrite Hc. apply IH. exact Ht.
Qed.

Lemma rstrip_all (p : ascii -> bool) (t : string) :
  all_chars p t = true -> rstrip p t = EmptyString.
Proof.
  induction t as [|c t IH]; intros H; [reflexivity|].
  simpl in H. apply andb_true_iff in H. destruct H as [Hc Ht].
  cbn [rstrip]. rewrite (IH Ht), Hc. reflexivity.
Qed.

Lemma rstrip_app_all (p : ascii -> bool) (s t : string) :
  all_chars p t = true -> rstrip p (s ++ t) = rstrip p s.
Proof.
  intros Ht. induction s as [|c s IH].
  - simpl. apply rstrip_all. exact Ht.
  - cbn [append rstrip]. rewrite IH. reflexivity.
Qed.

(** Stripping removes the characters of the class around a core that
    neither starts nor ends with one. *)
Lemma strip_around (p : ascii -> bool) (t core t' : string) :
  all_chars p t = true -> all_chars p t' = true ->
  nonempty core = true ->
  starts_in p core = false -> ends_in p core = false ->
  strip p (t ++ core ++ t') = core.
Proof.
  intros Ht Ht' Hne Hs He. unfold strip.
  rewrite (lstrip_app_all p t (core ++ t') Ht).
  rewrite lstrip_clean by (rewrite starts_in_app; assumption).
  rewrite (rstrip_app_all p core t' Ht').
  apply rstrip_clean. exact He.
Qed.

(** ** C9: the sender runs to the last character of its class *)

(** C9: in an ASCII question where the leftmost match of the pattern is at a
    word [from] (with any capitals) followed by white space [ws] and then by
    [body], a run of word characters, white space, dots, hyphens and at signs
    that ends at the end of the question or in front of a character outside
    that class, the captured sender is the whole of [body], however many
    words it has.  The query is [from:] and, between double quotes, [body]
    without the white space at its end and then without the dots at both
    ends: when [body] is dots, a core that neither starts nor ends with a
    dot, dots, white space, the query names the core.  Line 200 strips the
    two quotes, the question mark and the dot at both ends of a text; of
    these only the dot can be in [body]. *)
Theorem C9_sender_capture_is_greedy (pre kw ws body rest : string) :
  all_chars is_ascii (pre ++ kw ++ ws ++ body ++ rest) = true ->
  no_match_in pat_sender None pre (kw ++ ws ++ body ++ rest) = true ->
  is_from_word kw = true ->
  nonempty ws = true -> all_chars is_space ws = true ->
  nonempty body = true -> all_chars is_sender body = true ->
  starts_in is_space body = false ->
  starts_in is_sender rest = false ->
  re_search pat_sender (pre ++ kw ++ ws ++ body ++ rest) = Some body
  /\ (forall dots core dots' ws',
        body = dots ++ core ++ dots' ++ ws' ->
        all_chars is_dot dots = true -> all_chars is_dot dots' = true ->
        all_chars is_space ws' = true ->
        nonempty core = true ->
        starts_in is_dot core = false -> ends_in is_dot core = false ->
        (dots' = EmptyString -> ends_in is_space core = false) ->
        default_query (pre ++ kw ++ ws ++ body ++ rest) = sender_query core)
  /\ (forall t core t',
        all_chars (one_of trim_chars) t = true ->
        all_chars (one_of trim_chars) t' = true ->
        nonempty core = true ->
        starts_in (one_of trim_chars) core = false ->
        ends_in (one_of trim_chars) core = false ->
        strip is_sender_trim (t ++ core ++ t') = core).
Proof.
  intros _ Hno Hkw Hws1 Hws2 Hb1 Hb2 Hb3 Hrest.
  pose proof (sender_search pre kw ws body rest Hno (from_word_spells kw Hkw)
                Hws1 Hws2 Hb1 Hb2 Hb3 Hrest) as Hs.
  split; [exact Hs|]. split.
  - intros dots core dots' ws' Hbody Hd Hd' Hw' Hne Hcs Hce Hsp.
    unfold default_query. rewrite Hs. f_equal.
    assert (all_chars is_sender core = true) as Hcore.
    { rewrite Hbody in Hb2. rewrite !all_chars_app in Hb2.
      apply andb_true_iff in Hb2. destruct Hb2 as [_ Hb2].
      apply andb_true_iff in Hb2. tauto. }
    assert (forall d, all_chars is_dot d = true -> all_chars is_sender_trim d = true) as Hdt.
    { intros d. apply all_chars_impl. intros c Hc.
      unfold is_sender_trim. unfold is_dot in Hc. rewrite Hc.
      rewrite !orb_true_r. reflexivity. }
    assert (strip is_space body = dots ++ core ++ dots') as Hsp1.
    { unfold strip. rewrite (lstrip_clean is_space body Hb3). rewrite Hbody.
      replace (dots ++ core ++ dots' ++ ws') with ((dots ++ core ++ dots') ++ ws')
        by (rewrite <- !append_assoc; reflexivity).
      rewrite (rstrip_app_all is_space _ ws' Hw').
      apply rstrip_clean.
      rewrite ends_in_app by (apply nonempty_app; exact Hne).
      destruct dots' as [|c dots'].
      - rewrite app_nil_r_str. apply Hsp. reflexivity.
      - rewrite ends_in_app by reflexivity.
        apply (all_chars_ends is_dot); [exact dot_not_space | exact Hd']. }
    rewrite Hsp1.
    apply strip_around; auto.
    + destruct core as [|c core]; [discriminate Hne|].
      simpl in Hcore. apply andb_true_iff in Hcore. destruct Hcore as [Hc _].
      simpl. rewrite (sender_trim_is_dot c Hc). exact Hcs.
    + unfold ends_in in *. destruct (last_char core) as [c|] eqn:El; [|reflexivity].
      rewrite (sender_trim_is_dot c); [exact Hce|].
      eapply last_char_in; eauto.
  - intros t core t' Ht Ht' Hne Hcs Hce.
    apply strip_around; auto.
    + rewrite <- Ht. apply all_chars_ext. intros c. symmetry. apply one_of_trim.
    + rewrite <- Ht'. apply all_chars_ext. intros c. symmetry. apply one_of_trim.
    + destruct core as [|c core]; [discriminate Hne|].
      simpl in *. rewrite <- one_of_trim. exact Hcs.
    + unfold ends_in in *. destruct (last_char core) as [c|]; [|reflexivity].
      rewrite <- one_of_trim. exact Hce.
Qed.

Lemma C9_sender_capture_is_greedy_witness :
  re_search pat_sender "emails FROM Alice Smith about budget. (urgent)"
  = Some "Alice Smith about budget. "
  /\ default_query "emails FROM Alice Smith about budget. (urgent)"
     = dq "from:`Alice Smith about budget`".
Proof.
  destruct (C9_sender_capture_is_greedy "emails " "FROM" " " "Alice Smith about budget. "
              "(urgent)" eq_refl eq_refl eq_refl eq_refl eq_refl eq_refl eq_refl eq_refl
              eq_refl) as (Hs & Hq & _).
  split; [exact Hs|].
  apply (Hq EmptyString "Alice Smith about budget" "." " "); reflexivity.
Defined.

(** ** C4: the defaults of [search_emails] *)



(** * Further properties of [ask_llm] *)

(** ** The shape of every run *)

(** With completions that return, the run is the one of [ask_llm]. *)
Lemma ask_llm_raising_returning (it : interp) (sv : services) (q : string) :
  ask_llm_raising it (returning sv) q = ask_llm it sv q.
Proof.
  unfold ask_llm_raising, ask_llm, returning, dispatch_raising, dispatch. simpl.
  destruct (tool_calls (chat_tools sv q)) as [|tc rest]; [reflexivity|].
  destruct (resolve it tc q) as [name args| | |]; try reflexivity.
Qed.

(** Every run, whether the completions return or raise, makes at most one
    POST and at most as many follow-up completions as POSTs; a run that ends
    by an exception either made no POST or made it and ended in the
    follow-up completion, which raised; a run whose first completion raises
    or has no tool call makes no POST; and with completions that return the
    run is the one of [ask_llm]. *)
Theorem ask_llm_at_most_one_post (it : interp) (sv : raising_services) (q : string) :
  (List.length (posts (ask_llm_raising it sv q)) <= 1)%nat
  /\ (List.length (finals (ask_llm_raising it sv q))
      <= List.length (posts (ask_llm_raising it sv q)))%nat
  /\ (raised (ask_llm_raising it sv q) = false
      \/ posts (ask_llm_raising it sv q) = []
      \/ exists name data,
           r_chat_final sv q name data = None
           /\ finals (ask_llm_raising it sv q) = [ChatFinal q name data])
  /\ match r_chat_tools sv q with
     | Some msg =>
         match tool_calls msg with
         | [] => posts (ask_llm_raising it sv q) = []
                 /\ raised (ask_llm_raising it sv q) = false
         | _ :: _ => True
         end
     | None => posts (ask_llm_raising it sv q) = []
               /\ raised (ask_llm_raising it sv q) = true
     end
  /\ forall sv0 : services, ask_llm_raising it (returning sv0) q = ask_llm it sv0 q.
Proof.
  split; [|split; [|split; [|split]]]; try (intros sv0; apply ask_llm_raising_returning);
    unfold ask_llm_raising;
    destruct (r_chat_tools sv q) as [msg|]; try (simpl; auto; fail);
    destruct (tool_calls msg) as [|tc rest]; try (simpl; auto; fail);
    destruct (resolve it tc q) as [name args| | |]; try (simpl; auto; fail);
    destruct (py_str it args); try (simpl; auto; fail);
    destruct (dispatch_raising sv name args) as [data|e]; try (simpl; auto; fail);
    destruct (r_chat_final sv q name data) eqn:Hf; try (simpl; auto; fail).
  simpl. right. right. exists name, data. split; [exact Hf | reflexivity].
Qed.

(** The follow-up completion is made only after a POST that the endpoint
    answered with a status that is not an error and a JSON body; it is given
    the question and that body unchanged, and its answer is printed. *)
Theorem final_completion_gets_tool_output
    (it : interp) (sv : services) (q q' name : string) (data : pyval) :
  In (ChatFinal q' name data) (trace (ask_llm it sv q)) ->
  q' = q
  /\ exists args status,
       In (Post (endpoint_of name) (body_of args)) (trace (ask_llm it sv q))
       /\ post sv (endpoint_of name) (body_of args) = Some (Response status (Some data))
       /\ raise_for_status status = false
       /\ In (Print (FinalAnswerLine (chat_final sv q name data))) (trace (ask_llm it sv q)).
Proof.
  destruct (tool_calls (chat_tools sv q)) as [|tc rest] eqn:Htc.
  - unfold ask_llm. rewrite Htc. simpl. intros [H|[H|[H|[]]]]; discriminate.
  - rewrite (ask_llm_trace it sv q tc rest Htc).
    destruct (resolve it tc q) as [nm args| | |];
      try (simpl; intros [H|[H|[H|[]]]]; discriminate);
      try (simpl; intros [H|[H|[]]]; discriminate).
    destruct (py_str it args); [|simpl; intros [H|[H|[]]]; discriminate].
    destruct (dispatch sv nm args) as [d|e] eqn:Hd.
    + simpl. intros [H|[H|[H|[H|[H|[H|[]]]]]]]; try discriminate.
      inversion H; subst. split; [reflexivity|].
      unfold dispatch in Hd.
      destruct (post sv (endpoint_of name) (body_of args)) as [[status json]|] eqn:Hp;
        [|discriminate].
      destruct (raise_for_status status) eqn:Hr; [discriminate|].
      destruct json as [d|]; [|discriminate]. inversion Hd; subst.
      exists args, status. repeat split; auto 10.
    + simpl. intros [H|[H|[H|[H|[H|[]]]]]]; discriminate.
Qed.

Lemma final_completion_gets_tool_output_witness :
  let sv := stub_services (sdk_tool_call "get_unread_emails" "{}")
                          (Some (Response 200 (Some (PDict [("count", PInt 0)])))) in
  exists args status,
    post sv (endpoint_of "get_unread_emails") (body_of args)
    = Some (Response status (Some (PDict [("count", PInt 0)])))
    /\ raise_for_status status = false.
Proof.
  intros sv.
  destruct (final_completion_gets_tool_output no_builtins sv "any unread mail?"
              "any unread mail?" "get_unread_emails" (PDict [("count", PInt 0)]))
    as (_ & args & status & _ & Hp & Hr & _).
  { vm_compute. right. right. right. right. left. reflexivity. }
  exists args, status. split; [exact Hp | exact Hr].
Defined.

(** A request that raises, or an answer whose status is not an error but
    whose body is not JSON, ends the question like an error status does: the
    error line is printed after the single POST and no follow-up completion
    is made. *)
Theorem failed_request_or_bad_body_ends_the_question
    (it : interp) (sv : services) (q : string) (tc : pyval) (rest : list pyval)
    (name : string) (args : pyval) :
  tool_calls (chat_tools sv q) = tc :: rest ->
  resolve it tc q = Resolved name args ->
  py_str it args <> None ->
  (post sv (endpoint_of name) (body_of args) = None
   \/ exists status, post sv (endpoint_of name) (body_of args) = Some (Response status None)
                     /\ raise_for_status status = false) ->
  exists e,
    (e = TransportError \/ e = DecodeError)
    /\ (e = TransportError <-> post sv (endpoint_of name) (body_of args) = None)
    /\ ask_llm it sv q
       = returned [Print (UserLine q); ChatTools q; Print (DecidedLine name args);
                   Post (endpoint_of name) (body_of args); Print (ErrorCallingLine e)]
    /\ finals (ask_llm it sv q) = [].
Proof.
  intros Htc Hres Hstr Hpost.
  rewrite (ask_llm_trace it sv q tc rest Htc), Hres.
  destruct (py_str it args); [|congruence].
  unfold dispatch.
  destruct Hpost as [Hp|(status & Hp & Hr)]; rewrite Hp.
  - exists TransportError. repeat split; auto.
  - rewrite Hr. exists DecodeError. repeat split; auto; discriminate.
Qed.

Lemma failed_request_or_bad_body_ends_the_question_witness :
  exists e,
    (e = TransportError \/ e = DecodeError)
    /\ finals (ask_llm no_builtins
                 (stub_services (sdk_tool_call "get_unread_emails" "{}")
                                (Some (Response 200 None)))
                 "any unread mail?") = [].
Proof.
  destruct (failed_request_or_bad_body_ends_the_question no_builtins
              (stub_services (sdk_tool_call "get_unread_emails" "{}")
                             (Some (Response 200 None)))
              "any unread mail?" (sdk_tool_call "get_unread_emails" "{}") []
              "get_unread_emails" (PDict [("max_results", PInt 5)])
              eq_refl eq_refl ltac:(discriminate)
              (or_intror (ex_intro _ 200 (conj eq_refl eq_refl))))
    as (e & He & _ & _ & Hf).
  exists e. split; [exact He | exact Hf].
Defined.

(** Only the first tool call of the first completion is used: two services
    that agree on it, on the endpoint and on the follow-up completion give
    the same run, whatever other tool calls follow. *)
Theorem only_first_tool_call_is_used
    (it : interp) (sv sv' : services) (q : string) (tc : pyval) (rest rest' : list pyval) :
  tool_calls (chat_tools sv q) = tc :: rest ->
  tool_calls (chat_tools sv' q) = tc :: rest' ->
  (forall e b, post sv e b = post sv' e b) ->
  (forall a b c, chat_final sv a b c = chat_final sv' a b c) ->
  ask_llm it sv q = ask_llm it sv' q.
Proof.
  intros H1 H2 Hp Hf.
  rewrite (ask_llm_trace it sv q tc rest H1), (ask_llm_trace it sv' q tc rest' H2).
  destruct (resolve it tc q) as [name args| | |]; try reflexivity.
  destruct (py_str it args); [|reflexivity].
  unfold dispatch. rewrite Hp.
  destruct (post sv' (endpoint_of name) (body_of args)) as [[status json]|]; [|reflexivity].
  destruct (raise_for_status status); [reflexivity|].
  destruct json; [|reflexivity]. rewrite Hf. reflexivity.
Qed.

Lemma only_first_tool_call_is_used_witness :
  ask_llm no_builtins
    (stub_services_many [sdk_tool_call "get_unread_emails" "{}"] ok_response)
    "any unread mail?"
  = ask_llm no_builtins
      (stub_services_many [sdk_tool_call "get_unread_emails" "{}";
                           sdk_tool_call "search_emails" "{}"] ok_response)
      "any unread mail?".
Proof.
  apply (only_first_tool_call_is_used no_builtins _ _ "any unread mail?"
           (sdk_tool_call "get_unread_emails" "{}") []
           [sdk_tool_call "search_emails" "{}"]); reflexivity.
Defined.

(** ** Where the name and the arguments come from *)

(** A name in the dict view wins over the attributes (lines 109 to 116): when
    the dict view has a name made of letters, digits, underscores and hyphens
    under [name], that is the extracted name whatever the attributes hold,
    and the extraction raises only when the conversion of the raw arguments
    does. *)
Theorem dict_name_wins_over_attributes
    (it : interp) (tc : pyval) (d : pydict) (n : string) :
  tc_dict_of it tc = PDict d ->
  dict_get d "name" = PStr n ->
  nonempty n = true ->
  all_chars is_ident n = true ->
  extract it tc
  = match normalize_raw_args it (PDict d)
            (snd (prefer_dict (PDict d) (attr_name tc) (attr_args tc))) with
    | Some raw => Some (Some n, raw)
    | None => None
    end.
Proof.
  intros Hd Hn Hne Hid. unfold extract. rewrite Hd.
  destruct (prefer_dict (PDict d) (attr_name tc) (attr_args tc)) as [tn ra] eqn:Hp.
  assert (tn = PStr n) as ->.
  { unfold prefer_dict in Hp. rewrite Hn in Hp.
    destruct n as [|c n]; [discriminate Hne|].
    simpl in Hp. inversion Hp. reflexivity. }
  cbn -[sanitize_name normalize_raw_args].
  rewrite (sanitize_ident it n Hid). reflexivity.
Qed.

Lemma dict_name_wins_over_attributes_witness :
  extract no_builtins
    (PObj [("name", PStr "get_email_full");
           ("model_dump", method (PDict [("name", PStr "search_emails")]))]
          None None None true)
  = Some (Some "search_emails", PNone).
Proof.
  rewrite (dict_name_wins_over_attributes no_builtins _
             [("name", PStr "search_emails")] "search_emails");
    reflexivity.
Defined.

Lemma parse_args_none : parse_args PNone = PDict [].
Proof. reflexivity. Qed.

(** Arguments are read only from the attributes [arguments] and [args] of the
    tool call and from the keys [arguments], [args] and [arguments_json] of
    its dict view: when all of these are missing, the raw arguments are
    [None] wherever else the tool call carries arguments (under its
    [function], as the completion API does), so a known tool gets its
    defaults and [get_email_full] cannot be resolved. *)
Theorem arguments_elsewhere_are_ignored
    (it : interp) (tc : pyval) (d : pydict) (q name : string) (raw : pyval) :
  attr_args tc = PNone ->
  tc_dict_of it tc = PDict d ->
  dict_get d "arguments" = PNone ->
  dict_get d "args" = PNone ->
  dict_get d "arguments_json" = PNone ->
  extract it tc = Some (Some name, raw) ->
  nonempty name = true ->
  raw = PNone
  /\ resolve it tc q = apply_defaults name (PDict []) q
  /\ (name = "get_email_full" -> resolve it tc q = MissingRequiredArgument)
  /\ (name = "get_unread_emails" ->
      resolve it tc q = Resolved name (PDict [("max_results", PInt 5)])).
Proof.
  intros Ha Hd H1 H2 H3 Hex Hne.
  assert (raw = PNone) as ->.
  { unfold extract in Hex. rewrite Hd, Ha in Hex.
    unfold prefer_dict in Hex. rewrite H1, H2, H3 in Hex.
    change (py_or (py_or PNone PNone) PNone) with PNone in Hex.
    simpl in Hex.
    destruct (unnest_name it _) as [tn|]; [|discriminate].
    unfold normalize_raw_args in Hex. simpl in Hex. rewrite H1, H2, H3 in Hex.
    inversion Hex. reflexivity. }
  assert (resolve it tc q = apply_defaults name (PDict []) q) as Hres.
  { unfold resolve. rewrite Hex, Hne. reflexivity. }
  split; [reflexivity|]. split; [exact Hres|].
  split; intros ->; rewrite Hres; reflexivity.
Qed.

Lemma arguments_elsewhere_are_ignored_witness :
  resolve no_builtins
    (sdk_tool_call "get_email_full" (dq "{`message_id`: `18c2f0a9`}"))
    "open that email"
  = MissingRequiredArgument.
Proof.
  apply (arguments_elsewhere_are_ignored no_builtins
           (sdk_tool_call "get_email_full" (dq "{`message_id`: `18c2f0a9`}"))
           [("id", PStr "call_1");
            ("function", PDict [("name", PStr "get_email_full");
                                ("arguments", PStr (dq "{`message_id`: `18c2f0a9`}"))]);
            ("type", PStr "function")]
           "open that email" "get_email_full" PNone);
    reflexivity.
Defined.

(** A missing name is not reported: when no attribute and no entry of the
    dict view gives a name, the name becomes the text of [None] (lines 168 to
    174), which is not empty, so the resolution either raises on the raw
    arguments or resolves the tool [None]. *)
Theorem missing_name_becomes_None
    (it : interp) (tc : pyval) (d : pydict) (q : string) :
  attr_name tc = PNone ->
  tc_dict_of it tc = PDict d ->
  truthy (dict_get d "name") = false ->
  truthy (dict_get d "tool") = false ->
  is_str (dict_get d "function") && truthy (dict_get d "function") = false ->
  resolve it tc q = Raised
  \/ exists args, resolve it tc q = Resolved "None" args.
Proof.
  intros Ha Hd H1 H2 H3. unfold resolve, extract. rewrite Hd, Ha.
  destruct (prefer_dict (PDict d) PNone (attr_args tc)) as [tn ra] eqn:Hp.
  assert (tn = PNone) as ->.
  { unfold prefer_dict in Hp.
    assert (truthy (py_or (py_or (dict_get d "name") (dict_get d "tool"))
                          (if is_str (dict_get d "function")
                           then dict_get d "function" else PNone)) = false) as Hf.
    { unfold py_or. rewrite H1, H2.
      destruct (is_str (dict_get d "function")); simpl in *; auto. }
    rewrite Hf in Hp. inversion Hp. reflexivity. }
  simpl unnest_name. cbv iota beta.
  destruct (normalize_raw_args it (PDict d) ra) as [raw|]; [|left; reflexivity].
  right. exists (parse_args raw).
  change (sanitize_name it PNone) with (Some "None").
  cbv iota beta. simpl nonempty. cbv iota.
  unfold apply_defaults. destruct (truthy (parse_args raw)); reflexivity.
Qed.

Lemma missing_name_becomes_None_witness :
  posts (ask_llm no_builtins
           (stub_services (plain_object [("id", PStr "call_1")] "ToolCall") ok_response)
           "any unread mail?")
  = [Post "http://localhost:8000/tools/None" None].
Proof.
  destruct (missing_name_becomes_None no_builtins
              (plain_object [("id", PStr "call_1")] "ToolCall") [] "any unread mail?"
              eq_refl eq_refl eq_refl eq_refl eq_refl) as [H|[args H]].
  - discriminate H.
  - reflexivity.
Defined.

(** ** The normalisation of the name *)

Lemma span_fst_all (p : ascii -> bool) (s a b : string) :
  span p s = (a, b) -> all_chars p a = true.
Proof.
  revert a b. induction s as [|c s IH]; intros a b; simpl.
  - intros H; inversion H; reflexivity.
  - destruct (p c) eqn:Hc.
    + destruct (span p s) as [a' b'] eqn:E. intros H; inversion H; subst.
      simpl. rewrite Hc. apply (IH a' b eq_refl).
    + intros H; inversion H; reflexivity.
Qed.

(** What [re.search] returns is what the pattern matches somewhere. *)
Lemma search_from_sound {A : Type} (pat : option ascii -> string -> option A)
    (P : A -> Prop) :
  (forall prev s m, pat prev s = Some m -> P m) ->
  forall s prev m, search_from pat prev s = Some m -> P m.
Proof.
  intros Hpat. induction s as [|c s IH]; intros prev m; simpl.
  - destruct (pat prev EmptyString) eqn:E; [|discriminate].
    intros H; inversion H; subst. eapply Hpat; eauto.
  - destruct (pat prev (String c s)) eqn:E.
    + intros H; inversion H; subst. eapply Hpat; eauto.
    + apply IH.
Qed.

Lemma name_eq_ident (s g : string) :
  name_eq s = Some g -> nonempty g = true /\ all_chars is_ident g = true.
Proof.
  unfold name_eq. destruct (strip_prefix Ascii.eqb "name=" s) as [r|]; [|discriminate].
  match goal with
  | |- context [span is_ident ?x] => destruct (span is_ident x) as [a b] eqn:E
  end.
  destruct (nonempty a) eqn:Hne; [|discriminate].
  intros H; inversion H; subst. split; [exact Hne|]. eapply span_fst_all; eauto.
Qed.

Lemma pat_last_ident_ident (prev : option ascii) (s g : string) :
  pat_last_ident prev s = Some g -> nonempty g = true /\ all_chars is_ident g = true.
Proof.
  unfold pat_last_ident. destruct (span is_ident s) as [a b] eqn:E.
  destruct (nonempty a) eqn:Hne; [|discriminate].
  destruct b as [|c b]; [discriminate|].
  destruct c as [[] [] [] [] [] [] [] []]; try discriminate.
  destruct (all_chars is_space b); [|discriminate].
  intros H; inversion H; subst. split; [exact Hne|]. eapply span_fst_all; eauto.
Qed.

Lemma mark_found (mark tail : string) :
  In mark repr_marks -> re_search pat_repr (mark ++ tail) = Some tt.
Proof.
  intros [<-|[<-|[<-|[<-|[]]]]]; reflexivity.
Qed.

Lemma ident_not_quote (c : ascii) : is_ident c = true -> is_quote c = false.
Proof. destruct c as [[] [] [] [] [] [] [] []]; vm_compute; congruence. Qed.

(** The match of [name=], an optional quote and the name, where the text
    has them. *)
Lemma name_eq_at (quote id rest : string) :
  In quote name_quotes ->
  nonempty id = true -> all_chars is_ident id = true ->
  starts_in is_ident rest = false ->
  name_eq ("name=" ++ quote ++ id ++ rest) = Some id.
Proof.
  intros Hq Hne Hid Hrest. unfold name_eq. cbn [append strip_prefix Ascii.eqb Bool.eqb].
  cbv iota.
  assert (span is_ident (id ++ rest) = (id, rest)) as Hspan
    by (apply span_app; assumption).
  destruct Hq as [<-|[<-|[<-|[]]]].
  - cbn [append]. destruct id as [|c id]; [discriminate Hne|].
    cbn [append]. simpl in Hid. apply andb_true_iff in Hid. destruct Hid as [Hc Hid].
    rewrite (ident_not_quote c Hc).
    change (String c (id ++ rest)) with (String c id ++ rest). rewrite Hspan. reflexivity.
  - cbn [append]. change (is_quote "'") with true. cbv iota.
    rewrite Hspan, Hne. reflexivity.
  - cbn [append]. change (is_quote dquote) with true. cbv iota.
    rewrite Hspan, Hne. reflexivity.
Qed.

(** In an ASCII text that starts with one of the marks [Function(],
    [function(], [ToolCall(], [ChatCompletion] of a printed object, and whose
    first [name=] that a name can follow is followed by an optional quote
    and a run [id] of letters, digits, underscores and hyphens, the
    normalisation finds [id], the whole run; and normalising [id] again
    changes nothing. *)
Theorem sanitize_name_finds_the_name (it : interp) (mark mid quote id rest : string) :
  all_chars is_ascii (mark ++ mid ++ "name=" ++ quote ++ id ++ rest) = true ->
  In mark repr_marks -> In quote name_quotes ->
  no_match_in pat_name None (mark ++ mid) ("name=" ++ quote ++ id ++ rest) = true ->
  nonempty id = true -> all_chars is_ident id = true ->
  starts_in is_ident rest = false ->
  sanitize_name it (PStr (mark ++ mid ++ "name=" ++ quote ++ id ++ rest)) = Some id
  /\ sanitize_name it (PStr id) = Some id.
Proof.
  intros _ Hmark Hq Hno Hne Hid Hrest.
  split; [|apply sanitize_ident; exact Hid].
  unfold sanitize_name. rewrite (mark_found mark _ Hmark).
  rewrite <- append_assoc.
  assert (re_search pat_name ((mark ++ mid) ++ "name=" ++ quote ++ id ++ rest) = Some id) as Hs.
  { unfold re_search. apply search_from_skip; [|exact Hno].
    intros prev. unfold pat_name. apply name_eq_at; assumption. }
  rewrite Hs. reflexivity.
Qed.

Lemma sanitize_name_finds_the_name_witness :
  sanitize_name no_builtins
    (PStr "ToolCall(function=Function(arguments='{}', name='search_emails'))")
  = Some "search_emails".
Proof.
  apply (proj1 (sanitize_name_finds_the_name no_builtins
                  "ToolCall(" "function=Function(arguments='{}', " "'" "search_emails" "'))"
                  eq_refl ltac:(simpl; auto) ltac:(simpl; auto) eq_refl eq_refl eq_refl
                  eq_refl)).
Defined.

(** ** The sender put into the query *)

Lemma all_chars_lstrip (p q : ascii -> bool) (s : string) :
  all_chars q s = true -> all_chars q (lstrip p s) = true.
Proof.
  induction s as [|c s IH]; simpl; [reflexivity|].
  intros H. destruct (p c).
  - apply IH. apply andb_true_iff in H. tauto.
  - exact H.
Qed.

Lemma all_chars_rstrip (p q : ascii -> bool) (s : string) :
  all_chars q s = true -> all_chars q (rstrip p s) = true.
Proof.
  induction s as [|c s IH]; simpl; [reflexivity|].
  intros H. apply andb_true_iff in H. destruct H as [Hc Hs].
  specialize (IH Hs).
  destruct (rstrip p s) as [|c' r].
  - destruct (p c); simpl; [reflexivity | rewrite Hc; reflexivity].
  - change (all_chars q (String c (String c' r)))
      with (q c && all_chars q (String c' r)).
    rewrite Hc, IH. reflexivity.
Qed.

Lemma all_chars_strip (p q : ascii -> bool) (s : string) :
  all_chars q s = true -> all_chars q (strip p s) = true.
Proof. intros H. unfold strip. apply all_chars_rstrip, all_chars_lstrip, H. Qed.

Lemma space_is_sender (c : ascii) : is_space c = true -> is_sender c = true.
Proof. unfold is_sender. intros ->. destruct (is_word c); reflexivity. Qed.

Lemma pat_sender_class (prev : option ascii) (s g : string) :
  pat_sender prev s = Some g -> all_chars is_sender g = true.
Proof.
  unfold pat_sender. destruct (strip_prefix eqb_ci "from" s) as [r|]; [|discriminate].
  destruct (span is_space r) as [ws r'] eqn:Ews.
  destruct (span is_sender r') as [a b] eqn:Ea.
  destruct (nonempty ws); [|discriminate].
  destruct (nonempty a).
  - intros H; inversion H; subst. eapply span_fst_all; eauto.
  - destruct ws as [|c1 [|c2 ws]]; try discriminate.
    destruct (last_char (String c1 (String c2 ws))) as [c|] eqn:El; [|discriminate].
    intros H; inversion H; subst. simpl.
    rewrite (space_is_sender c); [reflexivity|].
    eapply last_char_in; [|exact El]. eapply span_fst_all; eauto.
Qed.

Lemma sender_no_dquote (c : ascii) : is_sender c = true -> no_dquote c = true.
Proof. destruct c as [[] [] [] [] [] [] [] []]; vm_compute; congruence. Qed.

(** Whenever a sender is found in an ASCII question, what is put between the
    double quotes of the query is made of word characters, white space,
    dots, hyphens and at signs only: it contains no double quote, so the
    query always has the form of one quoted filter. *)
Theorem sender_in_query_has_no_quote (q g : string) :
  all_chars is_ascii q = true ->
  re_search pat_sender q = Some g ->
  default_query q = sender_query (strip is_sender_trim (strip is_space g))
  /\ all_chars is_sender (strip is_sender_trim (strip is_space g)) = true
  /\ all_chars no_dquote (strip is_sender_trim (strip is_space g)) = true.
Proof.
  intros _ Hs.
  assert (all_chars is_sender g = true) as Hg.
  { unfold re_search in Hs.
    apply (search_from_sound pat_sender (fun g => all_chars is_sender g = true)) in Hs; auto.
    intros prev s m Hm. eapply pat_sender_class; eauto. }
  assert (all_chars is_sender (strip is_sender_trim (strip is_space g)) = true) as Hst.
  { apply all_chars_strip, all_chars_strip, Hg. }
  split; [unfold default_query; rewrite Hs; reflexivity|].
  split; [exact Hst|].
  eapply all_chars_impl; [exact sender_no_dquote | exact Hst].
Qed.

Lemma sender_in_query_has_no_quote_witness :
  default_query "emails from bob@example.com?" = sender_query "bob@example.com".
Proof.
  apply (proj1 (sender_in_query_has_no_quote "emails from bob@example.com?"
                  "bob@example.com" eq_refl eq_refl)).
Defined.

(** ** What the question can change *)

(** The question is read only to build the default query of
    [search_emails]: for a tool call that does not resolve to [search_emails]
    with empty arguments, the resolution is the same for every question. *)
Theorem question_matters_only_for_search_defaults
    (it : interp) (tc : pyval) (q q' : string) :
  (forall raw, extract it tc = Some (Some "search_emails", raw) ->
               truthy (parse_args raw) = true) ->
  resolve it tc q = resolve it tc q'.
Proof.
  intros H. unfold resolve.
  destruct (extract it tc) as [[[name|] raw]|] eqn:Hex; try reflexivity.
  destruct (nonempty name); [|reflexivity].
  unfold apply_defaults.
  destruct (truthy (parse_args raw)) eqn:Ht; [reflexivity|]. simpl.
  destruct (String.eqb name "search_emails") eqn:E; [|reflexivity].
  apply String.eqb_eq in E. subst name.
  rewrite (H raw eq_refl) in Ht. discriminate.
Qed.

Lemma question_matters_only_for_search_defaults_witness :
  resolve no_builtins (sdk_tool_call "get_unread_emails" "{}") "any unread mail?"
  = resolve no_builtins (sdk_tool_call "get_unread_emails" "{}") "emails from Alice".
Proof.
  apply (question_matters_only_for_search_defaults no_builtins
           (sdk_tool_call "get_unread_emails" "{}")).
  intros raw H. discriminate H.
Defined.

(** * The script around [ask_llm] *)

(** In interactive mode, when no run of [ask_llm] ends by an exception, the
    questions asked are exactly the typed lines stripped of white space,
    without the blank ones, up to the first that is [exit] or [quit] in any
    letter case, in the order they were typed. *)
Theorem interactive_asks_the_stripped_lines
    (it : interp) (sv : services) (typed : list string) :
  (forall q, raised (ask_llm it sv q) = false) ->
  asked (log (interactive it sv typed))
  = take_until is_quit (filter nonempty (map (strip is_space) typed))
  /\ died (interactive it sv typed) = false.
Proof.
  intros Hok. induction typed as [|l rest [IH1 IH2]]; [split; reflexivity|].
  simpl interactive. simpl map. simpl filter.
  destruct (nonempty (strip is_space l)) eqn:Hne; simpl negb; cbv iota.
  - simpl take_until. destruct (is_quit (strip is_space l)); [split; reflexivity|].
    rewrite Hok. simpl. rewrite IH1. split; [reflexivity | exact IH2].
  - split; [exact IH1 | exact IH2].
Qed.

Lemma interactive_asks_the_stripped_lines_witness :
  asked (log (interactive no_builtins
                (stub_services (sdk_tool_call "get_unread_emails" "{}") ok_response)
                ["  any unread mail? "; "   "; "Quit"; "emails from Alice"]))
  = ["any unread mail?"].
Proof.
  apply (proj1 (interactive_asks_the_stripped_lines no_builtins
                  (stub_services (sdk_tool_call "get_unread_emails" "{}") ok_response)
                  ["  any unread mail? "; "   "; "Quit"; "emails from Alice"]
                  (fun q => eq_refl))).
Defined.

(** Whatever the runs do, every question asked in interactive mode is a
    typed line stripped of white space, is not blank and is neither [exit]
    nor [quit]. *)
Theorem interactive_questions_are_clean
    (it : interp) (sv : services) (typed : list string) (q : string) :
  In q (asked (log (interactive it sv typed))) ->
  nonempty q = true /\ is_quit q = false
  /\ exists l, In l typed /\ q = strip is_space l.
Proof.
  induction typed as [|l rest IH]; simpl interactive.
  - simpl. intros [].
  - destruct (nonempty (strip is_space l)) eqn:Hne; simpl negb; cbv iota.
    + destruct (is_quit (strip is_space l)) eqn:Hq; [simpl; intros []|].
      destruct (raised (ask_llm it sv (strip is_space l))).
      * simpl. intros [<-|[]]. repeat split; auto. exists l. split; [left|]; reflexivity.
      * simpl. intros [<-|Hin].
        -- repeat split; auto. exists l. split; [left|]; reflexivity.
        -- destruct (IH Hin) as (H1 & H2 & l' & Hl & He).
           repeat split; auto. exists l'. split; [right; exact Hl | exact He].
    + intros Hin. destruct (IH Hin) as (H1 & H2 & l' & Hl & He).
      repeat split; auto. exists l'. split; [right; exact Hl | exact He].
Qed.

Lemma interactive_questions_are_clean_witness :
  nonempty "any unread mail?" = true /\ is_quit "any unread mail?" = false.
Proof.
  destruct (interactive_questions_are_clean no_builtins
              (stub_services (sdk_tool_call "get_unread_emails" "{}") ok_response)
              ["  any unread mail? "; "EXIT"] "any unread mail?")
    as (H1 & H2 & _).
  { vm_compute. left. reflexivity. }
  split; [exact H1 | exact H2].
Defined.

(** Nothing typed after [exit] or [quit] is read: the session is the same
    whatever follows that line, and it ends without the closing line. *)
Theorem quit_ends_the_session
    (it : interp) (sv : services) (before : list string) (l : string)
    (after after' : list string) :
  is_quit (strip is_space l) = true ->
  interactive it sv (before ++ l :: after) = interactive it sv (before ++ l :: after').
Proof.
  intros Hq.
  assert (nonempty (strip is_space l) = true) as Hne.
  { destruct (strip is_space l); [discriminate Hq | reflexivity]. }
  induction before as [|b before IH]; simpl.
  - rewrite Hne, Hq. reflexivity.
  - rewrite IH. reflexivity.
Qed.

Lemma quit_ends_the_session_witness :
  interactive no_builtins
    (stub_services (sdk_tool_call "get_unread_emails" "{}") ok_response)
    ["any unread mail?"; " quit "; "emails from Alice"]
  = interactive no_builtins
      (stub_services (sdk_tool_call "get_unread_emails" "{}") ok_response)
      ["any unread mail?"; " quit "].
Proof.
  apply (quit_ends_the_session no_builtins
           (stub_services (sdk_tool_call "get_unread_emails" "{}") ok_response)
           ["any unread mail?"] " quit " ["emails from Alice"] []).
  reflexivity.
Defined.

(** The script asks a blank question only when the command line gives one:
    a question is either the words of the command line joined by spaces, or,
    without such words, a non-blank text that is the piped text stripped of
    white space when the input is not a terminal and a typed line stripped
    of white space when it is. *)
Theorem only_the_command_line_can_ask_a_blank_question
    (it : interp) (sv : services) (question : list string)
    (isatty : bool) (stdin : string) (typed : list string) (q : string) :
  In q (asked (log (main it sv question isatty stdin typed))) ->
  (question <> [] /\ q = join " " question)
  \/ (question = [] /\ nonempty q = true
      /\ (if isatty then exists l, In l typed /\ q = strip is_space l
          else q = strip is_space stdin)).
Proof.
  unfold main. destruct question as [|w ws].
  - intros Hin. right. split; [reflexivity|].
    destruct isatty; simpl negb in Hin; cbv iota in Hin.
    + simpl in Hin.
      destruct (interactive_questions_are_clean it sv typed q Hin) as (H1 & _ & H3).
      split; assumption.
    + destruct (nonempty (strip is_space stdin)) eqn:Hne; simpl in Hin.
      * destruct Hin as [<-|[]]. split; [exact Hne | reflexivity].
      * destruct Hin.
  - simpl. intros [<-|[]]. left. split; [discriminate | reflexivity].
Qed.

Lemma only_the_command_line_can_ask_a_blank_question_witness :
  (["any"; "unread"; "mail?"] <> [] /\ "any unread mail?" = join " " ["any"; "unread"; "mail?"])
  \/ (["any"; "unread"; "mail?"] = [] /\ nonempty "any unread mail?" = true
      /\ "any unread mail?" = strip is_space "emails from Alice").
Proof.
  apply (only_the_command_line_can_ask_a_blank_question no_builtins
           (stub_services (sdk_tool_call "get_unread_emails" "{}") ok_response)
           ["any"; "unread"; "mail?"] false "emails from Alice" [] "any unread mail?").
  left. reflexivity.
Defined.

(** * gmail_tools.py and the endpoints *)

(** ** The headers map *)

Lemma key_eqb_eq (a b : option string) : Gmail.key_eqb a b = true <-> a = b.
Proof.
  destruct a as [x|], b as [y|]; simpl; split; intros H;
    try discriminate; try reflexivity.
  - apply String.eqb_eq in H. subst. reflexivity.
  - inversion H. apply String.eqb_refl.
Qed.

Lemma map_get_set (m : Gmail.headers_map) (k k' v : option string) :
  Gmail.map_get (Gmail.map_set m k' v) k
  = if Gmail.key_eqb k k' then Some v else Gmail.map_get m k.
Proof.
  induction m as [|[k0 v0] m IH]; simpl.
  - reflexivity.
  - destruct (Gmail.key_eqb k' k0) eqn:E1; simpl.
    + apply key_eqb_eq in E1. subst k0.
      destruct (Gmail.key_eqb k k'); reflexivity.
    + destruct (Gmail.key_eqb k k0) eqn:E2.
      * destruct (Gmail.key_eqb k k') eqn:E3; [|reflexivity].
        apply key_eqb_eq in E2, E3.
        assert (Gmail.key_eqb k' k0 = true) as E4 by (apply key_eqb_eq; congruence).
        congruence.
      * exact IH.
Qed.

Lemma find_snoc {A : Type} (f : A -> bool) (l : list A) (x : A) :
  find f (l ++ [x]) = match find f l with
                      | Some y => Some y
                      | None => if f x then Some x else None
                      end.
Proof.
  induction l as [|a l IH]; simpl; [reflexivity|].
  destruct (f a); [reflexivity | exact IH].
Qed.

Lemma headers_fold_get (hs : list Gmail.header) (m : Gmail.headers_map) (k : option string) :
  Gmail.map_get
    (fold_left (fun m h => Gmail.map_set m (Gmail.name h) (Gmail.value h)) hs m) k
  = match find (fun h => Gmail.key_eqb k (Gmail.name h)) (rev hs) with
    | Some h => Some (Gmail.value h)
    | None => Gmail.map_get m k
    end.
Proof.
  revert m. induction hs as [|h hs IH]; intros m; simpl; [reflexivity|].
  rewrite IH, find_snoc.
  destruct (find (fun h0 => Gmail.key_eqb k (Gmail.name h0)) (rev hs)); [reflexivity|].
  rewrite map_get_set. destruct (Gmail.key_eqb k (Gmail.name h)); reflexivity.
Qed.

(** Looking a name up in the map built from a list of headers gives the
    value of the last header of the list that has this name, and nothing
    when no header has it: of several headers with one name only the last
    is kept.  A header without a name is filed under [None]. *)
Theorem headers_map_keeps_the_last_value (hs : list Gmail.header) (k : option string) :
  Gmail.map_get (Gmail._get_headers_map hs) k
  = option_map Gmail.value (find (fun h => Gmail.key_eqb k (Gmail.name h)) (rev hs)).
Proof.
  unfold Gmail._get_headers_map. rewrite headers_fold_get.
  destruct (find _ (rev hs)); reflexivity.
Qed.

(** ** The text of a payload *)

Section PartInduction.

Variable P : Gmail.part -> Prop.

Hypothesis step :
  forall pid mime fname hs b ps,
    Forall P ps -> P (Gmail.Part pid mime fname hs b ps).

(** Induction on a part with the property known of all its child parts. *)
Fixpoint part_ind_nested (p : Gmail.part) : P p :=
  match p with
  | Gmail.Part pid mime fname hs b ps =>
      step pid mime fname hs b ps
        ((fix all (l : list Gmail.part) : Forall P l :=
            match l with
            | [] => Forall_nil P
            | x :: r => Forall_cons x (part_ind_nested x) (all r)
            end) ps)
  end.

End PartInduction.

Lemma join_nil_iff (l : list string) :
  Forall (fun s => nonempty s = true) l ->
  nonempty (join Gmail.nl l) = match l with [] => false | _ => true end.
Proof.
  intros H. destruct l as [|a l]; [reflexivity|].
  inversion H; subst. destruct a as [|c a]; [discriminate|].
  destruct l; reflexivity.
Qed.

Lemma join_app (a b : list string) :
  a <> [] -> b <> [] ->
  join Gmail.nl (a ++ b) = join Gmail.nl a ++ Gmail.nl ++ join Gmail.nl b.
Proof.
  intros Ha Hb. induction a as [|x a IH]; [congruence|].
  destruct a as [|y a].
  - destruct b; [congruence | reflexivity].
  - change (join Gmail.nl ((x :: y :: a) ++ b))
      with (x ++ Gmail.nl ++ join Gmail.nl ((y :: a) ++ b)).
    rewrite IH by discriminate.
    change (join Gmail.nl (x :: y :: a)) with (x ++ Gmail.nl ++ join Gmail.nl (y :: a)).
    rewrite !append_assoc. reflexivity.
Qed.

Lemma all_nonempty_concat (ls : list (list string)) :
  Forall (Forall (fun s => nonempty s = true)) ls ->
  Forall (fun s => nonempty s = true) (List.concat ls).
Proof.
  induction 1 as [|l ls Hl Hls IH]; simpl; [constructor|].
  apply Forall_app. split; assumption.
Qed.

Lemma all_nonempty_filter (l : list string) :
  Forall (fun s => nonempty s = true) (filter nonempty l).
Proof.
  apply Forall_forall. intros x Hx. apply filter_In in Hx. tauto.
Qed.

(** Joining the non-empty joins of lists of non-empty texts is joining all
    the texts. *)
Lemma join_of_joins (ls : list (list string)) :
  Forall (Forall (fun s => nonempty s = true)) ls ->
  join Gmail.nl (filter nonempty (map (join Gmail.nl) ls)) = join Gmail.nl (List.concat ls).
Proof.
  induction ls as [|l ls IH]; intros H; [reflexivity|].
  inversion H as [|? ? Hl Hls]; subst. specialize (IH Hls).
  pose proof (join_nil_iff _ (all_nonempty_concat ls Hls)) as HC.
  pose proof (join_nil_iff _ (all_nonempty_filter (map (join Gmail.nl) ls))) as HJ.
  rewrite IH in HJ. rewrite HJ in HC. clear HJ.
  simpl map. simpl filter. simpl List.concat.
  rewrite (join_nil_iff l Hl).
  destruct l as [|a l]; [exact IH|].
  destruct (filter nonempty (map (join Gmail.nl) ls)) as [|t ts];
    destruct (List.concat ls) as [|c cs]; try discriminate HC.
  - rewrite app_nil_r. reflexivity.
  - rewrite (join_app (a :: l) (c :: cs)) by discriminate.
    rewrite <- IH. reflexivity.
Qed.

Lemma text_parts_eq pid mime fname hs b ps :
  Gmail.text_parts (Gmail.Part pid mime fname hs b ps)
  = if Gmail.is_text_plain (Gmail.Part pid mime fname hs b ps)
    then [Gmail.Part pid mime fname hs b ps]
    else List.concat (map Gmail.text_parts ps).
Proof.
  cbn [Gmail.text_parts].
  destruct (Gmail.is_text_plain (Gmail.Part pid mime fname hs b ps)); [reflexivity|].
  induction ps as [|x r IH]; [reflexivity|].
  cbn [map List.concat]. rewrite <- IH. reflexivity.
Qed.

Lemma extract_text_eq decode pid mime fname hs b ps :
  Gmail._extract_text_from_payload decode (Gmail.Part pid mime fname hs b ps)
  = if negb (Gmail.part_truthy (Gmail.Part pid mime fname hs b ps)) then EmptyString
    else if Gmail.is_text_plain (Gmail.Part pid mime fname hs b ps)
         then Gmail.decoded_text decode (Gmail.Part pid mime fname hs b ps)
         else join Gmail.nl
                (filter nonempty (map (Gmail._extract_text_from_payload decode) ps)).
Proof.
  cbn [Gmail._extract_text_from_payload].
  destruct (negb (Gmail.part_truthy (Gmail.Part pid mime fname hs b ps))); [reflexivity|].
  destruct (Gmail.is_text_plain (Gmail.Part pid mime fname hs b ps)); [reflexivity|].
  f_equal. induction ps as [|x r IH]; [reflexivity|].
  cbn [map filter]. rewrite <- IH. reflexivity.
Qed.

(** The text extracted from a payload is the decoded texts of its
    text/plain parts that have data, in document order, without the empty
    ones, joined by line feeds; parts of other types contribute nothing, and
    nothing under a text/plain part with data is read. *)
Theorem extracted_text_is_the_text_parts (decode : Gmail.codec) (p : Gmail.part) :
  Gmail._extract_text_from_payload decode p
  = join Gmail.nl
      (filter nonempty (map (Gmail.decoded_text decode) (Gmail.text_parts p))).
Proof.
  induction p as [pid mime fname hs b ps IH] using part_ind_nested.
  rewrite extract_text_eq, text_parts_eq.
  destruct (Gmail.is_text_plain (Gmail.Part pid mime fname hs b ps)) eqn:Htp.
  - assert (Gmail.part_truthy (Gmail.Part pid mime fname hs b ps) = true) as ->.
    { unfold Gmail.is_text_plain in Htp. simpl.
      destruct mime as [m|]; [destruct pid; reflexivity|].
      simpl in Htp. discriminate. }
    cbn [negb map filter].
    destruct (nonempty (Gmail.decoded_text decode (Gmail.Part pid mime fname hs b ps))) eqn:E;
      [reflexivity|].
    destruct (Gmail.decoded_text decode (Gmail.Part pid mime fname hs b ps));
      [reflexivity | discriminate].
  - assert (join Gmail.nl
              (filter nonempty (map (Gmail._extract_text_from_payload decode) ps))
            = join Gmail.nl
                (filter nonempty
                   (map (Gmail.decoded_text decode)
                        (List.concat (map Gmail.text_parts ps))))) as Hmulti.
    { rewrite concat_map, map_map.
      assert (filter nonempty
                (List.concat
                   (map (fun x => map (Gmail.decoded_text decode) (Gmail.text_parts x)) ps))
              = List.concat
                  (map (fun x => filter nonempty
                                   (map (Gmail.decoded_text decode) (Gmail.text_parts x)))
                       ps)) as ->.
      { clear. induction ps as [|x r IHr]; [reflexivity|].
        cbn [map List.concat]. rewrite filter_app, IHr. reflexivity. }
      rewrite <- join_of_joins.
      - f_equal. rewrite map_map.
        clear Htp. induction IH as [|x r Hx Hr IHr]; [reflexivity|].
        cbn [map filter]. rewrite Hx, IHr. reflexivity.
      - apply Forall_forall. intros l Hl. apply in_map_iff in Hl.
        destruct Hl as (x & <- & _). apply all_nonempty_filter. }
    destruct (Gmail.part_truthy (Gmail.Part pid mime fname hs b ps)) eqn:Ht;
      cbn [negb]; [exact Hmulti|].
    assert (ps = []) as ->.
    { simpl in Ht. destruct pid, mime, fname, hs, ps; try discriminate. reflexivity. }
    reflexivity.
Qed.

(** ** The attachments of [get_email_full] *)

Lemma take_str_length (n : nat) (s : string) : (String.length (Gmail.take_str n s) <= n)%nat.
Proof.
  revert s. induction n as [|n IH]; intros s; simpl; [lia|].
  destruct s as [|c s]; simpl; [lia|]. specialize (IH s). lia.
Qed.

Lemma slice_to_length (n : Z) (s : string) :
  0 <= n -> Z.of_nat (String.length (Gmail.slice_to n s)) <= n.
Proof.
  intros Hn. unfold Gmail.slice_to.
  replace (n <? 0) with false by (symmetry; apply Z.ltb_ge; lia).
  pose proof (take_str_length (Z.to_nat n) s). lia.
Qed.





(** ** The summaries and the endpoints *)

Lemma summaries_ids sv snippet_of refs l :
  Gmail.summaries sv snippet_of refs = Some l ->
  map Gmail.s_id l = map Gmail.ref_id refs
  /\ map Gmail.s_threadId l = map Gmail.ref_threadId refs
  /\ Forall (fun r => Gmail.messages_get sv (Gmail.ref_id r) "metadata"
                        Gmail.metadata_headers <> None) refs
  /\ forall s, In s l -> exists d, Gmail.s_snippet s = snippet_of d.
Proof.
  revert l. induction refs as [|r refs IH]; intros l; simpl.
  - intros H; inversion H; subst. repeat split; try constructor. intros s [].
  - destruct (Gmail.messages_get sv (Gmail.ref_id r) "metadata" Gmail.metadata_headers)
      as [d|] eqn:Hd; [|discriminate].
    destruct (Gmail.summaries sv snippet_of refs) as [l'|]; [|discriminate].
    intros H; inversion H; subst; clear H.
    destruct (IH l' eq_refl) as (H1 & H2 & H3 & H4).
    simpl. rewrite H1, H2. repeat split; auto.
    + constructor; [congruence | exact H3].
    + intros s [<-|Hin]; [exists d; reflexivity | apply H4; exact Hin].
Qed.

Lemma summaries_fail sv snippet_of refs r :
  In r refs ->
  Gmail.messages_get sv (Gmail.ref_id r) "metadata" Gmail.metadata_headers = None ->
  Gmail.summaries sv snippet_of refs = None.
Proof.
  induction refs as [|x refs IH]; intros Hin Hr; [destruct Hin|].
  simpl. destruct Hin as [->|Hin].
  - rewrite Hr. reflexivity.
  - destruct (Gmail.messages_get sv (Gmail.ref_id x) "metadata" Gmail.metadata_headers);
      [|reflexivity].
    rewrite (IH Hin Hr). reflexivity.
Qed.

(** The endpoint [/tools/get_unread_emails] always asks Gmail for at most 5
    unread messages, whatever the request carried; when it answers, [count]
    is the number of messages Gmail listed, the emails are these messages in
    the order listed, with their ids and thread ids, and every email has a
    snippet that is a text. *)
Theorem unread_emails_endpoint_answer
    (sv : Gmail.service) (count : Z) (emails : list Gmail.summary) :
  Gmail.unread_emails sv = Some (count, emails) ->
  exists refs,
    Gmail.messages_list sv None ["UNREAD"] (Some 5) = Some refs
    /\ count = Z.of_nat (List.length refs)
    /\ map Gmail.s_id emails = map Gmail.ref_id refs
    /\ map Gmail.s_threadId emails = map Gmail.ref_threadId refs
    /\ Forall (fun s => Gmail.s_snippet s <> None) emails.
Proof.
  unfold Gmail.unread_emails, Gmail.get_unread_emails, Gmail.list_unread_emails.
  destruct (Gmail.messages_list sv None ["UNREAD"] (Some 5)) as [refs|]; [|discriminate].
  destruct (Gmail.summaries sv _ refs) as [l|] eqn:Hs; [|discriminate].
  intros H; inversion H; subst; clear H.
  destruct (summaries_ids _ _ _ _ Hs) as (H1 & H2 & _ & H4).
  exists refs. repeat split; auto.
  - f_equal. rewrite <- (length_map Gmail.s_id), H1, length_map. reflexivity.
  - apply Forall_forall. intros s Hin. destruct (H4 s Hin) as [d ->]. discriminate.
Qed.

(** The search endpoint asks Gmail for the query and the limit of the
    request; when it answers, [count] is the number of messages listed and
    the results are these messages in order; and it answers only when every
    listed message could be fetched: one failing fetch fails the request. *)
Theorem search_endpoint_answer
    (sv : Gmail.service) (query : string) (max_results : option Z) :
  (forall count results,
      Gmail.search_emails_endpoint sv query max_results = Some (count, results) ->
      exists refs,
        Gmail.messages_list sv (Some query) [] max_results = Some refs
        /\ count = Z.of_nat (List.length refs)
        /\ map Gmail.s_id results = map Gmail.ref_id refs)
  /\ (forall refs r,
        Gmail.messages_list sv (Some query) [] max_results = Some refs ->
        In r refs ->
        Gmail.messages_get sv (Gmail.ref_id r) "metadata" Gmail.metadata_headers = None ->
        Gmail.search_emails_endpoint sv query max_results = None).
Proof.
  unfold Gmail.search_emails_endpoint, Gmail.search_emails. split.
  - intros count results.
    destruct (Gmail.messages_list sv (Some query) [] max_results) as [refs|]; [|discriminate].
    destruct (Gmail.summaries sv _ refs) as [l|] eqn:Hs; [|discriminate].
    intros H; inversion H; subst; clear H.
    destruct (summaries_ids _ _ _ _ Hs) as (H1 & _).
    exists refs. repeat split; auto.
    f_equal. rewrite <- (length_map Gmail.s_id), H1, length_map. reflexivity.
  - intros refs r Hl Hin Hr. rewrite Hl.
    rewrite (summaries_fail sv _ refs r Hin Hr). reflexivity.
Qed.


Lemma unread_emails_endpoint_answer_witness :
  exists refs,
    Gmail.messages_list sample_service None ["UNREAD"] (Some 5) = Some refs
    /\ 2 = Z.of_nat (List.length refs).
Proof.
  destruct (unread_emails_endpoint_answer sample_service 2
              [{| Gmail.s_id := "m1"; Gmail.s_threadId := Some "t1";
                  Gmail.s_headers := [(Some "Subject", Some "Budget");
                                      (Some "From", Some "alice@example.com")];
                  Gmail.s_snippet := Some EmptyString |};
               {| Gmail.s_id := "m2"; Gmail.s_threadId := None;
                  Gmail.s_headers := [(Some "Subject", Some "Budget");
                                      (Some "From", Some "alice@example.com")];
                  Gmail.s_snippet := Some EmptyString |}]
              eq_refl) as (refs & H1 & H2 & _).
  exists refs. split; [exact H1 | exact H2].
Defined.

Lemma search_endpoint_answer_witness :
  exists refs,
    Gmail.messages_list sample_service (Some (dq "from:`Alice`")) [] (Some 5) = Some refs
    /\ 2 = Z.of_nat (List.length refs).
Proof.
  destruct (proj1 (search_endpoint_answer sample_service (dq "from:`Alice`") (Some 5)) 2
              [{| Gmail.s_id := "m1"; Gmail.s_threadId := Some "t1";
                  Gmail.s_headers := [(Some "Subject", Some "Budget");
                                      (Some "From", Some "alice@example.com")];
                  Gmail.s_snippet := None |};
               {| Gmail.s_id := "m2"; Gmail.s_threadId := None;
                  Gmail.s_headers := [(Some "Subject", Some "Budget");
                                      (Some "From", Some "alice@example.com")];
                  Gmail.s_snippet := None |}]
              eq_refl) as (refs & H1 & H2 & _).
  exists refs. split; [exact H1 | exact H2].
Defined.

(** ** [build_context_for_llm] *)

Lemma take_str_nonempty (n : nat) (s : string) :
  nonempty (Gmail.take_str (S n) s) = nonempty s.
Proof. destruct s; reflexivity. Qed.

Lemma slice_to_nonempty (n : Z) (s : string) :
  0 < n -> nonempty (Gmail.slice_to n s) = nonempty s.
Proof.
  intros Hn. unfold Gmail.slice_to.
  replace (n <? 0) with false by (symmetry; apply Z.ltb_ge; lia).
  destruct (Z.to_nat n) as [|k] eqn:E; [lia|]. apply take_str_nonempty.
Qed.

(** Only the first 2000 characters of an ASCII body reach the context: two
    emails that differ only in their bodies, which are ASCII and agree on
    their first 2000 characters, give the same context; and what the context
    shows of the body has at most 2000 characters. *)
Theorem build_context_cuts_the_body
    (hs : Gmail.headers_map) (sn : option string) (b1 b2 : string)
    (atts : list Gmail.attachment) (include_attachments : bool) (n : Z) :
  all_chars is_ascii b1 = true -> all_chars is_ascii b2 = true ->
  Gmail.slice_to 2000 b1 = Gmail.slice_to 2000 b2 ->
  Gmail.build_context_for_llm
    {| Gmail.v_headers := hs; Gmail.v_snippet := sn; Gmail.v_body := Some b1;
       Gmail.v_attachments := atts |} include_attachments n
  = Gmail.build_context_for_llm
      {| Gmail.v_headers := hs; Gmail.v_snippet := sn; Gmail.v_body := Some b2;
         Gmail.v_attachments := atts |} include_attachments n
  /\ (String.length (Gmail.slice_to 2000 b1) <= 2000)%nat.
Proof.
  intros _ _ H. split.
  - unfold Gmail.build_context_for_llm. cbn [Gmail.v_headers Gmail.v_snippet Gmail.v_body
                                              Gmail.v_attachments Gmail.some_text].
    assert (nonempty b1 = nonempty b2) as Hne.
    { rewrite <- (slice_to_nonempty 2000 b1), <- (slice_to_nonempty 2000 b2), H by lia.
      reflexivity. }
    rewrite Hne. destruct (nonempty b2); [|reflexivity].
    rewrite H. reflexivity.
  - pose proof (slice_to_length 2000 b1 ltac:(lia)). lia.
Qed.

Lemma build_context_cuts_the_body_witness :
  Gmail.build_context_for_llm
    {| Gmail.v_headers := []; Gmail.v_snippet := None;
       Gmail.v_body := Some (repeat_char "a" 2000 ++ "first ending");
       Gmail.v_attachments := [] |} true 500
  = Gmail.build_context_for_llm
      {| Gmail.v_headers := []; Gmail.v_snippet := None;
         Gmail.v_body := Some (repeat_char "a" 2000 ++ "another ending");
         Gmail.v_attachments := [] |} true 500.
Proof.
  apply (proj1 (build_context_cuts_the_body [] None
                  (repeat_char "a" 2000 ++ "first ending")
                  (repeat_char "a" 2000 ++ "another ending") [] true 500
                  ltac:(vm_compute; reflexivity) ltac:(vm_compute; reflexivity)
                  ltac:(vm_compute; reflexivity))).
Defined.

(** When the body is missing or empty the snippet takes its place, and when
    attachments are not asked for, or there is none, neither the attachments
    nor the preview length change the context. *)
Theorem build_context_fallback_and_flag
    (hs : Gmail.headers_map) (s : string) (b : option string)
    (atts atts' : list Gmail.attachment) (include_attachments : bool) (n n' : Z) :
  Gmail.some_text b = false ->
  Gmail.build_context_for_llm
    {| Gmail.v_headers := hs; Gmail.v_snippet := Some s; Gmail.v_body := b;
       Gmail.v_attachments := atts |} include_attachments n
  = Gmail.build_context_for_llm
      {| Gmail.v_headers := hs; Gmail.v_snippet := Some s; Gmail.v_body := Some s;
         Gmail.v_attachments := atts |} include_attachments n
  /\ Gmail.build_context_for_llm
       {| Gmail.v_headers := hs; Gmail.v_snippet := Some s; Gmail.v_body := b;
          Gmail.v_attachments := atts |} false n
     = Gmail.build_context_for_llm
         {| Gmail.v_headers := hs; Gmail.v_snippet := Some s; Gmail.v_body := b;
            Gmail.v_attachments := atts' |} false n'
  /\ Gmail.build_context_for_llm
       {| Gmail.v_headers := hs; Gmail.v_snippet := Some s; Gmail.v_body := b;
          Gmail.v_attachments := [] |} true n
     = Gmail.build_context_for_llm
         {| Gmail.v_headers := hs; Gmail.v_snippet := Some s; Gmail.v_body := b;
            Gmail.v_attachments := atts' |} false n'.
Proof.
  intros Hb. split; [|split; reflexivity].
  unfold Gmail.build_context_for_llm.
  cbn [Gmail.v_headers Gmail.v_snippet Gmail.v_body Gmail.v_attachments].
  rewrite Hb. cbn [Gmail.some_text].
  destruct (nonempty s); reflexivity.
Qed.

Lemma build_context_fallback_and_flag_witness :
  Gmail.build_context_for_llm (Gmail.view_of_summary
    {| Gmail.s_id := "m1"; Gmail.s_threadId := None;
       Gmail.s_headers := [(Some "Subject", Some "Budget")];
       Gmail.s_snippet := Some "Please review" |}) true 500
  = Gmail.build_context_for_llm
      {| Gmail.v_headers := [(Some "Subject", Some "Budget")];
         Gmail.v_snippet := Some "Please review"; Gmail.v_body := Some "Please review";
         Gmail.v_attachments := [] |} true 500.
Proof.
  apply (proj1 (build_context_fallback_and_flag [(Some "Subject", Some "Budget")]
                  "Please review" None [] [] true 500 500 eq_refl)).
Defined.
